(** * Setter.AI: call tracking, dialogue engine and outcome classifier

    A shallow embedding of the Python sources
    - [src/setter_ai/core/ai_logic.py]            (class [AILogic]),
    - [src/setter_ai/integrations/*.py]           (the two gateways' set-up),
    - [src/setter_ai/utils/config.py]             (key validation),
    - [src/setter_ai/web/app.py], [web/routes.py] (call table, webhooks),
    followed by the properties of the specification that concern them.

    Conventions.  Python [str] is [string]; the text handled here is ASCII, so
    [str.lower] and [str.strip] act on the ASCII letters and blanks.  A Python
    dict that is iterated is an association list in insertion order; a dict
    only looked up by key is a [gmap].  Dict values that are mutated in place
    live in a heap of objects and the tables hold references.  A call into a
    vendor library (OpenAI, Twilio, HTTP) is an argument giving its outcome,
    [None] standing for a raised exception. *)

From Stdlib Require Import Ascii DecimalString.
From stdpp Require Import gmap strings list.

Local Open Scope bool_scope.

(** ** Python strings *)

Module PyStr.

Definition lower_ascii (c : ascii) : ascii :=
  let n := nat_of_ascii c in
  if (65 <=? n) && (n <=? 90) then ascii_of_nat (n + 32) else c.

(** [s.lower()] *)
Fixpoint lower (s : string) : string :=
  match s with
  | EmptyString => EmptyString
  | String c s' => String (lower_ascii c) (lower s')
  end.

(** [s.startswith(p)] *)
Fixpoint startswith (s p : string) {struct p} : bool :=
  match p, s with
  | EmptyString, _ => true
  | String _ _, EmptyString => false
  | String a p', String b s' => bool_decide (a = b) && startswith s' p'
  end.

(** [k in s] on strings: [k] occurs in [s] as a contiguous substring. *)
Fixpoint py_in (k s : string) : bool :=
  startswith s k ||
  match s with
  | EmptyString => false
  | String _ s' => py_in k s'
  end.

(** The blanks [str.strip] removes, among the ASCII characters. *)
Definition is_space (c : ascii) : bool :=
  let n := nat_of_ascii c in
  ((9 <=? n) && (n <=? 13)) || ((28 <=? n) && (n <=? 32)).

Fixpoint lstrip (s : string) : string :=
  match s with
  | EmptyString => EmptyString
  | String c s' => if is_space c then lstrip s' else s
  end.

Definition rstrip (s : string) : string := String.rev (lstrip (String.rev s)).

(** [s.strip()] *)
Definition strip (s : string) : string := rstrip (lstrip s).

(** Truth value of a string: [if s:] *)
Definition truthy (s : string) : bool :=
  match s with EmptyString => false | _ => true end.

(** [str(n)] for a natural number *)
Definition of_nat (n : nat) : string := NilEmpty.string_of_uint (Nat.to_uint n).

(** [sep.join(l)] *)
Definition join (sep : string) (l : list string) : string := String.concat sep l.

(** The double-quote and the line-feed characters. *)
Definition dq : string := String (ascii_of_nat 34) EmptyString.
Definition nl : string := String (ascii_of_nat 10) EmptyString.

End PyStr.

Import PyStr.

(** [any(p(x) for x in l)] *)
Definition any {A} (p : A -> bool) (l : list A) : bool := existsb p l.

(** [l[start:]] for a Python list, [start] possibly negative. *)
Definition slice_from {A} (start : Z) (l : list A) : list A :=
  if (start <? 0)%Z
  then drop (Z.to_nat (Z.max 0 (Z.of_nat (length l) + start))) l
  else drop (Z.to_nat start) l.

(** ** Python dicts kept in insertion order *)

Module PyDict.
Section Ops.
Context {V : Type}.

(** [d.get(k)] *)
Fixpoint get (k : string) (d : list (string * V)) : option V :=
  match d with
  | [] => None
  | (k', v) :: d' => if bool_decide (k' = k) then Some v else get k d'
  end.

(** [k in d] *)
Definition mem (k : string) (d : list (string * V)) : bool :=
  match get k d with Some _ => true | None => false end.

(** [d[k] = v]: an existing key keeps its place, a new one goes last. *)
Fixpoint set (k : string) (v : V) (d : list (string * V)) : list (string * V) :=
  match d with
  | [] => [(k, v)]
  | (k', v') :: d' =>
      if bool_decide (k' = k) then (k, v) :: d' else (k', v') :: set k v d'
  end.
End Ops.
End PyDict.

(** ** ai_logic.py *)

(** One entry of a conversation: the dict with keys ['speaker'], ['content'],
    ['timestamp']. *)
Record turn := Turn { speaker : string; content : string; timestamp : string }.

(** A message of the chat-completion request: ['role'] and ['content']. *)
Record chat_message := ChatMessage { role : string; msg_content : string }.

(** The lead dict, as far as the code reads it; [None] is an absent key. *)
Record lead := Lead {
  lead_key : option string;        (* 'id' *)
  firstName : option string;
  lastName : option string;
  phone : option string
}.

(** The empty dict [{}] used where no lead is known. *)
Definition no_lead : lead := Lead None None None None.

(** The generation service for one request: model name and messages in, the
    text of the first choice out, [None] when the call or the access to
    [response.choices[0].message.content] raises. *)
Definition generation := string -> list chat_message -> option string.

(** The attributes of an [AILogic] instance that the methods read. *)
Record AILogic := {
  model : string;
  conversation_memory_turns : Z;
  agent_name : string;
  company_name : string;
  contact_person : string;
  conversation_memory : gmap string (list turn)
}.

Definition with_memory (self : AILogic) (m : gmap string (list turn)) : AILogic :=
  {| model := model self;
     conversation_memory_turns := conversation_memory_turns self;
     agent_name := agent_name self;
     company_name := company_name self;
     contact_person := contact_person self;
     conversation_memory := m |}.

(** The names defined in the body of [class AILogic]; an instance has no other
    callable attribute. *)
Definition AILogic_methods : list string :=
  [ "__init__"; "generate_response"; "_build_system_prompt"; "_build_messages";
    "store_user_response"; "analyze_conversation_outcome";
    "extract_meeting_details"; "get_conversation_history"; "clear_conversation";
    "is_configured"; "get_config_info" ].

Definition apology : string :=
  "I apologize, but I'm having trouble processing that right now. Could you please repeat?".

(** The twelve blanks that start every continuation line of the templates. *)
Definition ind : string := "            ".

(** The three templates of [_build_system_prompt], one per branch. *)
Definition opening_prompt (self : AILogic) (lead_name : string) : string :=
  join nl [
    "You are " +:+ agent_name self +:+ ", calling on behalf of "
      +:+ contact_person self +:+ " from " +:+ company_name self +:+ ".";
    ind;
    ind +:+ "Start with a brief, warm introduction: " +:+ dq +:+ "Hi " +:+ lead_name
      +:+ ", this is " +:+ agent_name self +:+ " calling on behalf of "
      +:+ contact_person self +:+ " from " +:+ company_name self +:+ "." +:+ dq;
    ind +:+ "Then ask if they have a quick moment to discuss business financing.";
    ind;
    ind +:+ "Keep it short and natural - like a real person talking.";
    ind +:+ "Don't give long speeches. Just introduce yourself and ask for their time.";
    ind +:+ "Speak quickly and efficiently - no gaps or delays.";
    ind +:+ "Respond immediately without hesitation." ].

Definition qualification_prompt (self : AILogic) : string :=
  join nl [
    "You are " +:+ agent_name self +:+ " from " +:+ company_name self
      +:+ ". Keep responses short and conversational.";
    ind;
    ind +:+ "Ask ONE question at a time:";
    ind +:+ "- " +:+ dq +:+ "What type of financing are you looking for?" +:+ dq;
    ind +:+ "- " +:+ dq +:+ "What's the purpose of the loan?" +:+ dq;
    ind +:+ "- " +:+ dq +:+ "What amount are you considering?" +:+ dq;
    ind;
    ind +:+ "Listen to their response and ask follow-up questions naturally.";
    ind +:+ "If they ask about " +:+ company_name self +:+ ", give brief, helpful answers:";
    ind +:+ "- " +:+ dq +:+ "We offer business loans from $5K to $500K" +:+ dq;
    ind +:+ "- " +:+ dq +:+ "Rates start at 8%" +:+ dq;
    ind +:+ "- " +:+ dq +:+ "Approval in 24-48 hours" +:+ dq;
    ind;
    ind +:+ "Be conversational, not scripted. Speak quickly and efficiently.";
    ind +:+ "Respond immediately without delays." ].

Definition scheduling_prompt (self : AILogic) (lead_name : string) : string :=
  join nl [
    "You are " +:+ agent_name self +:+ " from " +:+ company_name self +:+ ". "
      +:+ lead_name +:+ " is interested.";
    ind;
    ind +:+ "Move to scheduling naturally:";
    ind +:+ "- " +:+ dq +:+ "When would be a good time for " +:+ contact_person self
      +:+ " to call you?" +:+ dq;
    ind +:+ "- Don't ask for email - use the email from their lead profile";
    ind +:+ "- Schedule the meeting and say " +:+ contact_person self
      +:+ " will send calendar invite";
    ind;
    ind +:+ "Keep it simple and direct.";
    ind +:+ "Don't over-explain.";
    ind +:+ "Speak quickly and efficiently.";
    ind +:+ "Respond immediately without delays." ].

Definition _build_system_prompt (self : AILogic) (lead_name : string)
    (conversation_length : nat) : string :=
  if conversation_length =? 0 then opening_prompt self lead_name
  else if conversation_length <=? 2 then qualification_prompt self
  else scheduling_prompt self lead_name.

Definition _build_messages (self : AILogic) (system_prompt context : string)
    (conversation_history : list turn) : list chat_message :=
  let messages := [ChatMessage "system" system_prompt] in
  let messages :=
    messages ++
    map (fun msg =>
           let role := if bool_decide (speaker msg = agent_name self)
                       then "assistant" else "user" in
           ChatMessage role (content msg))
        (slice_from (- conversation_memory_turns self * 2) conversation_history) in
  if truthy context
  then messages ++ [ChatMessage "user" ("Context: " +:+ context)]
  else messages.

(** [self.conversation_memory.get(call_id, [])] *)
Definition history_of (self : AILogic) (call_id : string) : list turn :=
  default [] (conversation_memory self !! call_id).

(** The lead's display name: the f-string of the two name parts, stripped. *)
Definition lead_name_of (lead_info : lead) : string :=
  strip (default "" (firstName lead_info) +:+ " " +:+ default "" (lastName lead_info)).

(** The request [generate_response] hands to the generation service. *)
Definition generate_request (self : AILogic) (lead_info : lead)
    (context call_id : string) : list chat_message :=
  let lead_name := lead_name_of lead_info in
  let conversation_history := history_of self call_id in
  let conversation_length := length conversation_history in
  let system_prompt := _build_system_prompt self lead_name conversation_length in
  _build_messages self system_prompt context conversation_history.

(** [self.conversation_memory[call_id].append(entry)], the list being created
    when the key is new. *)
Definition memory_append (self : AILogic) (call_id : string) (entry : turn) : AILogic :=
  with_memory self (<[call_id := history_of self call_id ++ [entry]]> (conversation_memory self)).

(** [generate_response]: the whole body is inside [try]; any exception leads
    to the [except] branch, which returns the apology and touches nothing. *)
Definition generate_response (self : AILogic) (svc : generation) (now : string)
    (lead_info : lead) (context call_id : string) : AILogic * string :=
  let messages := generate_request self lead_info context call_id in
  match svc (model self) messages with
  | Some text =>
      let ai_response := strip text in
      let self' :=
        if truthy call_id
        then memory_append self call_id (Turn (agent_name self) ai_response now)
        else self in
      (self', ai_response)
  | None => (self, apology)
  end.

Definition store_user_response (self : AILogic) (now : string)
    (call_id user_response : string) : AILogic :=
  if truthy call_id
  then memory_append self call_id (Turn "Caller" user_response now)
  else self.

Definition positive_keywords : list string :=
  [ "interested"; "yes"; "sure"; "okay"; "good"; "great"; "perfect";
    "meeting"; "schedule"; "tomorrow"; "call back"; "definitely";
    "absolutely"; "of course"; "sounds good"; "that works" ].

Definition negative_keywords : list string :=
  [ "not interested"; "no thanks"; "busy"; "not now"; "later";
    "not available"; "don't call"; "stop calling"; "not interested";
    "no time"; "too busy"; "maybe later" ].

Definition meeting_keywords : list string :=
  [ "meeting"; "schedule"; "tomorrow"; "3 p.m."; "3 pm"; "appointment";
    "call back"; "follow up"; "set up"; "book" ].

(** The dict returned by [analyze_conversation_outcome]. *)
Record analysis := {
  outcome : string;
  positive_response : bool;
  negative_response : bool;
  meeting_scheduled : bool;
  conversation_length : nat
}.

Definition analyze_conversation_outcome (self : AILogic) (call_id : string) : analysis :=
  let conversation := history_of self call_id in
  let user_responses :=
    map (fun msg => lower (content msg))
        (filter (fun msg => speaker msg = "Caller") conversation) in
  let positive_response :=
    any (fun response => any (fun keyword => py_in keyword response) positive_keywords)
        user_responses in
  let negative_response :=
    any (fun response => any (fun keyword => py_in keyword response) negative_keywords)
        user_responses in
  let meeting_scheduled :=
    any (fun msg => any (fun keyword => py_in keyword (lower (content msg))) meeting_keywords)
        (filter (fun msg => speaker msg = agent_name self) conversation) in
  let outcome :=
    if positive_response && meeting_scheduled then "positive_meeting"
    else if positive_response then "positive"
    else if negative_response then "negative"
    else "neutral" in
  {| outcome := outcome;
     positive_response := positive_response;
     negative_response := negative_response;
     meeting_scheduled := meeting_scheduled;
     conversation_length := length conversation |}.

Definition time_words : list string :=
  [ "pm"; "am"; "o'clock"; "hour"; "tomorrow"; "today"; "week"; "3 p.m."; "3 pm"; "3:00" ].

Definition confirmation_keywords : list string :=
  [ "tomorrow"; "3 p.m."; "3 pm"; "schedule"; "meeting" ].

(** First loop of [extract_meeting_details]: the first caller turn holding a
    time word gives its text; [break] ends the loop there. *)
Fixpoint caller_time (conversation : list turn) (meeting_time : option string)
    : option string :=
  match conversation with
  | [] => meeting_time
  | msg :: rest =>
      if bool_decide (speaker msg = "Caller")
         && any (fun time_word => py_in time_word (lower (content msg))) time_words
      then Some (content msg)
      else caller_time rest meeting_time
  end.

(** Second loop: the first agent turn holding a confirmation keyword ends the
    loop, after assigning [meeting_time] when it names 3 p.m. or tomorrow. *)
Fixpoint agent_time (agent : string) (conversation : list turn)
    (meeting_time : option string) : option string :=
  match conversation with
  | [] => meeting_time
  | msg :: rest =>
      if bool_decide (speaker msg = agent)
         && any (fun keyword => py_in keyword (lower (content msg))) confirmation_keywords
      then
        let c := lower (content msg) in
        if py_in "3 p.m." c || py_in "3 pm" c then Some "3:00 PM MST"
        else if py_in "tomorrow" c then Some "Tomorrow (Time TBD)"
        else meeting_time
      else agent_time agent rest meeting_time
  end.

Definition extract_meeting_details (self : AILogic) (call_id : string) : option string :=
  let conversation := history_of self call_id in
  let meeting_time := None in
  let meeting_time := caller_time conversation meeting_time in
  let meeting_time := agent_time (agent_name self) conversation meeting_time in
  meeting_time.

Definition get_conversation_history (self : AILogic) (call_id : string) : list turn :=
  history_of self call_id.

(** ** Configuration values and the set-up of the three components *)

(** A configuration value, as [json.load] and the environment merge build it.
    A float is kept as the text of its [repr]. *)
#[warnings="-register-all"]
Inductive json :=
| JNull
| JBool (b : bool)
| JInt (z : Z)
| JFloat (repr : string)
| JStr (s : string)
| JList (l : list json)
| JDict (d : list (string * json)).

Module Config.

(** Truth value of a Python object: [if v:], [not v], [bool(v)]. *)
Definition truthy (v : json) : bool :=
  match v with
  | JNull => false
  | JBool b => b
  | JInt z => negb (z =? 0)%Z
  | JFloat r => negb (bool_decide (r = "0.0") || bool_decide (r = "-0.0"))
  | JStr s => PyStr.truthy s
  | JList l => match l with [] => false | _ => true end
  | JDict d => match d with [] => false | _ => true end
  end.

(** [a and b], which yields one of its operands. *)
Definition py_and (a b : json) : json := if truthy a then b else a.

Definition lookup (k : string) (d : list (string * json)) : option json :=
  PyDict.get k d.

(** [v.get(k, dflt)]; [None] is the [AttributeError] of a value that is
    not a dict. *)
Definition get (v : json) (k : string) (dflt : json) : option json :=
  match v with
  | JDict d => Some (default dflt (lookup k d))
  | _ => None
  end.

(** [v[k]]; [None] is a [KeyError] or [TypeError]. *)
Definition item (v : json) (k : string) : option json :=
  match v with
  | JDict d => lookup k d
  | _ => None
  end.

(** The walk of [_validate_required_keys] along one dotted path. *)
Fixpoint walk (keys : list string) (value : json) : json :=
  match keys with
  | [] => value
  | k :: keys' =>
      match value with
      | JDict d =>
          match lookup k d with
          | Some v => walk keys' v
          | None => JNull
          end
      | _ => JNull
      end
  end.

Definition required_keys : list (list string * string) :=
  [ (["ghl"; "api_key"], "GHL_API_KEY");
    (["ghl"; "location_id"], "GHL_LOCATION_ID");
    (["openai"; "api_key"], "OPENAI_API_KEY");
    (["twilio"; "account_sid"], "TWILIO_ACCOUNT_SID");
    (["twilio"; "auth_token"], "TWILIO_AUTH_TOKEN") ].

(** The environment variables [_validate_required_keys] reports missing;
    it raises unless the list is empty. *)
Definition missing_keys (config : json) : list string :=
  map snd (filter (fun p => truthy (walk p.1 config) = false) required_keys).

(** [_validate_required_keys]: [true] when it returns, [false] when it
    raises.  [load_config] returns [config] only when it returns. *)
Definition _validate_required_keys (config : json) : bool :=
  match missing_keys config with [] => true | _ => false end.

End Config.

(** What [AILogic.__init__] stores on the instance. *)
Record AILogic_attrs := {
  ai_config : json;
  openai_api_key : json;
  cfg_model : json;
  cfg_max_tokens : json;
  cfg_temperature : json;
  cfg_conversation_memory_turns : json;
  cfg_agent_name : json;
  cfg_company_name : json;
  cfg_contact_person : json;
  cfg_contact_email : json
}.

(** [AILogic.__init__(config)]; [None] when a [.get] meets a value that is
    not a dict. *)
Definition AILogic_init (config : json) : option AILogic_attrs :=
  ai_config ← Config.get config "ai_settings" (JDict []);
  openai ← Config.get config "openai" (JDict []);
  openai_api_key ← Config.get openai "api_key" JNull;
  model ← Config.get ai_config "model" (JStr "gpt-4");
  max_tokens ← Config.get ai_config "max_tokens" (JInt 150);
  temperature ← Config.get ai_config "temperature" (JFloat "0.7");
  turns ← Config.get ai_config "conversation_memory_turns" (JInt 5);
  agent ← Config.get ai_config "agent_name" (JStr "Maayaa");
  company ← Config.get ai_config "company_name" (JStr "LoanCater");
  person ← Config.get ai_config "contact_person" (JStr "Ryan");
  email ← Config.get ai_config "contact_email" (JStr "ryan@loancater.com");
  Some {| ai_config := ai_config; openai_api_key := openai_api_key;
          cfg_model := model; cfg_max_tokens := max_tokens;
          cfg_temperature := temperature;
          cfg_conversation_memory_turns := turns;
          cfg_agent_name := agent; cfg_company_name := company;
          cfg_contact_person := person; cfg_contact_email := email |}.

(** The module attribute [openai.api_key] once [__init__] has run, [prev]
    being its value before: it is assigned only when a key was found. *)
Definition openai_key_after (prev : json) (a : AILogic_attrs) : json :=
  if Config.truthy (openai_api_key a) then openai_api_key a else prev.

Definition AILogic_is_configured (a : AILogic_attrs) : bool :=
  Config.truthy (openai_api_key a).

(** The instance as the conversation methods use it, when the settings have
    the types those methods expect. *)
Definition dialogue_instance (a : AILogic_attrs) : option AILogic :=
  match cfg_model a, cfg_conversation_memory_turns a, cfg_agent_name a,
        cfg_company_name a, cfg_contact_person a with
  | JStr m, JInt n, JStr ag, JStr co, JStr pe =>
      Some {| model := m; conversation_memory_turns := n; agent_name := ag;
              company_name := co; contact_person := pe;
              conversation_memory := ∅ |}
  | _, _, _, _, _ => None
  end.

(** What [GHLIntegration.__init__] stores on the instance. *)
Record GHLIntegration := {
  ghl_self_config : json;
  ghl_config : json;
  api_key : json;
  location_id : json;
  check_interval : json;
  auto_call_enabled : json
}.

Definition GHLIntegration_init (config : json) : option GHLIntegration :=
  ghl_config ← Config.get config "ghl" (JDict []);
  api_key ← Config.get ghl_config "api_key" JNull;
  location_id ← Config.get ghl_config "location_id" JNull;
  check_interval ← Config.get ghl_config "check_interval_minutes" (JInt 10);
  auto ← Config.get ghl_config "auto_call_enabled" (JBool true);
  Some {| ghl_self_config := config; ghl_config := ghl_config;
          api_key := api_key; location_id := location_id;
          check_interval := check_interval; auto_call_enabled := auto |}.

(** The names defined in the body of [class GHLIntegration]. *)
Definition GHLIntegration_methods : list string :=
  [ "__init__"; "get_leads"; "get_dummy_leads"; "filter_available_leads";
    "update_lead_status"; "get_lead_by_id"; "is_configured"; "get_config_info" ].

Definition get_dummy_leads (self : GHLIntegration) : json :=
  default (JList []) (Config.get (ghl_self_config self) "dummy_leads" (JList [])).

(** [get_leads]: without credentials the dummy leads, before any request;
    [remote] is what the rest of the method returns once it talks to the
    GoHighLevel API (the contacts kept, or the dummy leads on an error). *)
Definition get_leads (self : GHLIntegration) (remote : json) : json :=
  if negb (Config.truthy (api_key self)) || negb (Config.truthy (location_id self))
  then get_dummy_leads self
  else remote.

Definition GHLIntegration_is_configured (self : GHLIntegration) : bool :=
  Config.truthy (Config.py_and (api_key self) (location_id self)).

(** What [TwilioIntegration.__init__] stores; [client] tells whether the
    Twilio client was created. *)
Record TwilioIntegration := {
  tw_self_config : json;
  twilio_config : json;
  account_sid : json;
  auth_token : json;
  phone_number : json;
  webhook_base_url : json;
  client : bool
}.

Definition TwilioIntegration_init (config : json) : option TwilioIntegration :=
  twilio_config ← Config.get config "twilio" (JDict []);
  account_sid ← Config.get twilio_config "account_sid" JNull;
  auth_token ← Config.get twilio_config "auth_token" JNull;
  phone_number ← Config.get twilio_config "phone_number" JNull;
  webhook ← Config.get config "webhook_base_url" JNull;
  Some {| tw_self_config := config; twilio_config := twilio_config;
          account_sid := account_sid; auth_token := auth_token;
          phone_number := phone_number; webhook_base_url := webhook;
          client := Config.truthy (Config.py_and account_sid auth_token) |}.

Definition TwilioIntegration_is_configured (self : TwilioIntegration) : bool :=
  Config.truthy
    (Config.py_and (Config.py_and (account_sid self) (auth_token self)) (phone_number self)).

(** The components [create_app] builds from the loaded configuration: each
    constructor receives one section of it.  [None] when a section is absent
    ([KeyError]) or a constructor raises. *)
Definition create_app (config : json)
    : option (AILogic_attrs * GHLIntegration * TwilioIntegration) :=
  ai_settings ← Config.item config "ai_settings";
  ai_logic ← AILogic_init ai_settings;
  ghl ← Config.item config "ghl";
  ghl_integration ← GHLIntegration_init ghl;
  twilio ← Config.item config "twilio";
  twilio_integration ← TwilioIntegration_init twilio;
  Some (ai_logic, ghl_integration, twilio_integration).

(** ** Exceptions and name resolution *)

Inductive exn :=
| AttributeError (cls attr : string)
| NameError (name : string)
| TypeError (msg : string).

(** [str(e)] *)
Definition str_exn (e : exn) : string :=
  match e with
  | AttributeError cls attr =>
      "'" +:+ cls +:+ "' object has no attribute '" +:+ attr +:+ "'"
  | NameError name => "name '" +:+ name +:+ "' is not defined"
  | TypeError msg => msg
  end.

Inductive result (A : Type) :=
| Ok (a : A)
| Raise (e : exn).
Arguments Ok {A} a.
Arguments Raise {A} e.

(** [obj.name] on an instance of class [cls] whose attributes are [attrs]. *)
Definition getattr (cls : string) (attrs : list string) (name : string) : result unit :=
  if bool_decide (name ∈ attrs) then Ok tt else Raise (AttributeError cls name).

(** A free name evaluated in a function whose enclosing scopes bind [scope]. *)
Definition load_name (scope : list string) (name : string) : result unit :=
  if bool_decide (name ∈ scope) then Ok tt else Raise (NameError name).

(** The attributes [__init__] sets on an [AILogic] instance. *)
Definition AILogic_fields : list string :=
  [ "config"; "ai_config"; "openai_api_key"; "model"; "max_tokens"; "temperature";
    "conversation_memory_turns"; "agent_name"; "company_name"; "contact_person";
    "contact_email"; "conversation_memory" ].

Definition GHLIntegration_fields : list string :=
  [ "config"; "ghl_config"; "api_key"; "location_id"; "check_interval";
    "auto_call_enabled" ].

(** routes.py: the names its imports and definitions bind at module level,
    then the parameters and the nested functions of [register_routes]. *)
Definition routes_globals : list string :=
  [ "sqlite3"; "json"; "datetime"; "jsonify"; "request"; "render_template";
    "logging"; "logger"; "register_routes" ].

Definition register_routes_locals : list string :=
  [ "app"; "ai_logic"; "ghl_integration"; "twilio_integration"; "active_calls";
    "call_history"; "db_path";
    "dashboard_page"; "dashboard"; "get_call_record"; "get_recording_url";
    "serve_recording_media"; "get_leads"; "make_call_endpoint"; "test_call";
    "test_webhook"; "handle_call"; "handle_call_response"; "handle_call_status";
    "health_check"; "get_config"; "debug_conversation"; "debug_all_calls" ].

Definition routes_scope : list string := register_routes_locals ++ routes_globals.

(** ** The call table and the database *)

(** A [call_info] dict.  [make_call] builds it with ['call_sid'] and
    ['lead_info'], [handle_call] with ['lead_id']; an absent key is [None]. *)
Record call_info := {
  ci_call_id : string;
  ci_call_sid : option string;
  ci_lead_info : option lead;
  ci_lead_id : option string;
  ci_start_time : string;
  ci_status : string
}.

Definition set_status (status : string) (info : call_info) : call_info :=
  {| ci_call_id := ci_call_id info; ci_call_sid := ci_call_sid info;
     ci_lead_info := ci_lead_info info; ci_lead_id := ci_lead_id info;
     ci_start_time := ci_start_time info; ci_status := status |}.

(** A row of table [call_records], with the columns the code writes. *)
Record call_record := {
  r_call_id : string;
  r_lead_id : string;
  r_lead_name : string;
  r_phone_number : string;
  r_call_start_time : string;
  r_status : string;
  r_conversation_data : string;
  r_recording_url : string;
  r_duration : Z;
  r_call_sid : option string
}.

(** The [call_result] dict handed to [save_call_record]. *)
Record call_result := {
  res_status : string;
  res_call_sid : option string;
  res_conversation_data : string;
  res_recording_url : string;
  res_duration : Z
}.

(** The state shared by the webhooks and the monitoring thread.  [objects] is
    the heap of [call_info] dicts; [call_history] and [active_calls] map a
    call id to a reference into it, so that an object stored in both tables
    is one object. *)
Record world := {
  ai_logic : AILogic;
  objects : list call_info;
  call_history : list (string * nat);
  active_calls : gmap string nat;
  call_records : list call_record;
  called_leads : list string
}.

Definition with_ai (w : world) (a : AILogic) : world :=
  {| ai_logic := a; objects := objects w; call_history := call_history w;
     active_calls := active_calls w; call_records := call_records w;
     called_leads := called_leads w |}.

Definition with_objects (w : world) (o : list call_info) : world :=
  {| ai_logic := ai_logic w; objects := o; call_history := call_history w;
     active_calls := active_calls w; call_records := call_records w;
     called_leads := called_leads w |}.

Definition with_call_history (w : world) (h : list (string * nat)) : world :=
  {| ai_logic := ai_logic w; objects := objects w; call_history := h;
     active_calls := active_calls w; call_records := call_records w;
     called_leads := called_leads w |}.

Definition with_active_calls (w : world) (a : gmap string nat) : world :=
  {| ai_logic := ai_logic w; objects := objects w; call_history := call_history w;
     active_calls := a; call_records := call_records w;
     called_leads := called_leads w |}.

Definition with_call_records (w : world) (db : list call_record) : world :=
  {| ai_logic := ai_logic w; objects := objects w; call_history := call_history w;
     active_calls := active_calls w; call_records := db;
     called_leads := called_leads w |}.

(** The dict [call_history.get(call_id)] refers to. *)
Definition history_entry (w : world) (call_id : string) : option call_info :=
  r ← PyDict.get call_id (call_history w); objects w !! r.

(** The dict [active_calls.get(call_id)] refers to. *)
Definition active_entry (w : world) (call_id : string) : option call_info :=
  r ← active_calls w !! call_id; objects w !! r.

(** The row of [call_records] whose primary key is [call_id]. *)
Definition db_record (w : world) (call_id : string) : option call_record :=
  List.find (fun row => bool_decide (r_call_id row = call_id)) (call_records w).

(** A new dict stored under [call_id] in [call_history]. *)
Definition history_store (w : world) (call_id : string) (info : call_info) : world :=
  let r := length (objects w) in
  with_call_history (with_objects w (objects w ++ [info]))
                    (PyDict.set call_id r (call_history w)).

(** ** app.py *)

(** [INSERT OR REPLACE]: the row with the same primary key goes, the new
    row is added. *)
Definition insert_or_replace (row : call_record) (db : list call_record)
    : list call_record :=
  filter (fun old => r_call_id old ≠ r_call_id row) db ++ [row].

Definition save_call_record (now : string) (call_id : string)
    (info : option call_info) (res : call_result) (db : list call_record)
    : list call_record :=
  let lead_info := default no_lead (info ≫= ci_lead_info) in
  let lead_name := lead_name_of lead_info in
  insert_or_replace
    {| r_call_id := call_id;
       r_lead_id := default "" (lead_key lead_info);
       r_lead_name := lead_name;
       r_phone_number := default "" (phone lead_info);
       r_call_start_time := default now (ci_start_time <$> info);
       r_status := res_status res;
       r_conversation_data := res_conversation_data res;
       r_recording_url := res_recording_url res;
       r_duration := res_duration res;
       r_call_sid := res_call_sid res |}
    db.

(** What [TwilioIntegration.make_call] returns: the bare [False] of the
    missing client, or a pair. *)
Inductive twilio_result :=
| TwFalse
| TwTuple (success : bool) (call_sid : option string).

(** [TwilioIntegration.make_call]; [created] is the outcome of
    [client.calls.create], the sid of the new call or [None] when it (or the
    preparation of its arguments) raises. *)
Definition TwilioIntegration_make_call (self : TwilioIntegration)
    (created : option string) : twilio_result :=
  if negb (client self) then TwFalse
  else match created with
       | Some sid => TwTuple true (Some sid)
       | None => TwTuple false None
       end.

(** [make_call] of app.py.  [clock] is [int(time.time())], [now] the text of
    [datetime.now()], [tw] what the Twilio integration returned.  Every
    exception is caught by the function's own [except], which returns
    [False]; what was stored before the exception stays stored. *)
Definition make_call (tw : twilio_result) (clock : nat) (now : string)
    (ld : lead) (w : world) : world * bool :=
  let call_id := "call_" +:+ of_nat clock +:+ "_" +:+ default "unknown" (lead_key ld) in
  match tw with
  | TwFalse => (w, false)
  | TwTuple false _ => (w, false)
  | TwTuple true call_sid =>
      let info :=
        {| ci_call_id := call_id; ci_call_sid := call_sid;
           ci_lead_info := Some ld; ci_lead_id := None;
           ci_start_time := now; ci_status := "initiated" |} in
      let r := length (objects w) in
      let w := history_store w call_id info in
      let w := with_active_calls w (<[call_id := r]> (active_calls w)) in
      let res :=
        {| res_status := "initiated"; res_call_sid := call_sid;
           res_conversation_data := ""; res_recording_url := "";
           res_duration := 0 |} in
      let w := with_call_records w
                 (save_call_record now call_id (Some info) res (call_records w)) in
      match getattr "GHLIntegration" (GHLIntegration_fields ++ GHLIntegration_methods)
                    "mark_lead_as_called" with
      | Raise _ => (w, false)
      | Ok _ => (w, true)
      end
  end.

(** [lead.get('id') not in called_lead_ids], kept for every lead in order. *)
Definition filter_available_leads (leads : list lead) (called_lead_ids : list string)
    : list lead :=
  List.filter (fun ld => match lead_key ld with
                         | Some i => negb (bool_decide (i ∈ called_lead_ids))
                         | None => true
                         end) leads.

(** The lead one round of [monitor] picks among those [get_leads] returned. *)
Definition monitor_pick (leads : list lead) (w : world) : option lead :=
  head (filter_available_leads leads (called_leads w)).

(** One round of the loop in [monitor]. *)
Definition monitor (leads : list lead) (tw : twilio_result) (clock : nat)
    (now : string) (w : world) : world :=
  match monitor_pick leads w with
  | Some ld => fst (make_call tw clock now ld w)
  | None => w
  end.

(** ** routes.py *)

(** What a handler returns. *)
Inductive response :=
| JsonError (status : nat) (error : string)   (* jsonify({'error': ..}), status *)
| JsonSuccess (status : string)               (* jsonify({'success': True, 'status': ..}) *)
| TwiML (body : string).                      (* body, 200, text/xml *)

(** The TwiML document both speech handlers build. *)
Definition twiml_response (ai_response call_id : string) : string :=
  join nl [
    "<?xml version=" +:+ dq +:+ "1.0" +:+ dq +:+ " encoding=" +:+ dq +:+ "UTF-8" +:+ dq +:+ "?>";
    "<Response>";
    "    <Say voice=" +:+ dq +:+ "alice" +:+ dq +:+ ">" +:+ ai_response +:+ "</Say>";
    "    <Record action=" +:+ dq +:+ "/handle_response?call_id=" +:+ call_id +:+ dq +:+ " ";
    "            maxLength=" +:+ dq +:+ "30" +:+ dq +:+ " ";
    "            playBeep=" +:+ dq +:+ "true" +:+ dq +:+ " ";
    "            trim=" +:+ dq +:+ "trim-silence" +:+ dq +:+ " />";
    "</Response>" ].

(** [ai_logic.store_ai_response]: the attribute is looked up on the instance
    before anything is called. *)
Definition load_store_ai_response : result unit :=
  getattr "AILogic" (AILogic_fields ++ AILogic_methods) "store_ai_response".

(** [/handle_call], with the query arguments [call_id] and [lead_id]. *)
Definition handle_call (svc : generation) (now : string) (call_id lead_id : string)
    (w : world) : world * response :=
  if negb (truthy call_id) then (w, JsonError 400 "Call ID required") else
  let w :=
    if PyDict.mem call_id (call_history w) then w
    else history_store w call_id
           {| ci_call_id := call_id; ci_call_sid := None; ci_lead_info := None;
              ci_lead_id := Some lead_id; ci_start_time := now;
              ci_status := "initiated" |} in
  let lead_info := default no_lead (history_entry w call_id ≫= ci_lead_info) in
  let '(ai, ai_response) := generate_response (ai_logic w) svc now lead_info "" call_id in
  let w := with_ai w ai in
  match load_store_ai_response with
  | Raise e => (w, JsonError 500 (str_exn e))
  | Ok _ => (w, TwiML (twiml_response ai_response call_id))
  end.

(** [/handle_response], with the query argument [call_id] and the form field
    [SpeechResult]. *)
Definition handle_call_response (svc : generation) (now : string)
    (call_id SpeechResult : string) (w : world) : world * response :=
  if negb (truthy call_id) then (w, JsonError 400 "Call ID required") else
  let user_response :=
    if negb (truthy SpeechResult) then "User spoke but no text was captured"
    else SpeechResult in
  let w := with_ai w (store_user_response (ai_logic w) now call_id user_response) in
  let lead_info := default no_lead (history_entry w call_id ≫= ci_lead_info) in
  let '(ai, ai_response) :=
    generate_response (ai_logic w) svc now lead_info user_response call_id in
  let w := with_ai w ai in
  match load_store_ai_response with
  | Raise e => (w, JsonError 500 (str_exn e))
  | Ok _ => (w, TwiML (twiml_response ai_response call_id))
  end.

(** The request of [/call_status]: one query argument and four form fields,
    each [''] when absent. *)
Record status_request := {
  arg_call_id : string;
  CallSid : string;
  CallStatus : string;
  RecordingUrl : string;
  RecordingSid : string
}.

Definition status_mapping : list (string * string) :=
  [ ("initiated", "initiated"); ("ringing", "ringing"); ("answered", "active");
    ("completed", "completed"); ("busy", "busy"); ("failed", "failed");
    ("no-answer", "no-answer"); ("canceled", "canceled"); ("in-progress", "active") ].

(** [status_mapping.get(call_status, call_status)] *)
Definition mapped_status_of (call_status : string) : string :=
  default call_status (PyDict.get call_status status_mapping).

Definition terminal_statuses : list string :=
  [ "completed"; "busy"; "failed"; "no-answer"; "canceled" ].

Definition is_terminal (status : string) : bool :=
  bool_decide (status ∈ terminal_statuses).

(** The call id an event is attributed to: the one of the URL, else the
    first entry of [call_history] with the event's [CallSid], else the first
    row of [call_records] with it; [''] when none is found. *)
Definition resolve_call_id (w : world) (call_id call_sid : string) : string :=
  let call_id :=
    if negb (truthy call_id) && truthy call_sid
    then match List.find (fun '(cid, r) =>
                            bool_decide ((objects w !! r) ≫= ci_call_sid = Some call_sid))
                         (call_history w) with
         | Some (cid, _) => cid
         | None => call_id
         end
    else call_id in
  if negb (truthy call_id)
  then match List.find (fun row => bool_decide (r_call_sid row = Some call_sid))
                       (call_records w) with
       | Some row => r_call_id row
       | None => call_id
       end
  else call_id.

(** [s.split(sep)[-1]]: [skip] counts the characters of a separator still to
    pass, [piece] is the text since the last separator. *)
Fixpoint last_piece (sep s : string) (skip : nat) (piece : string) : string :=
  match s with
  | EmptyString => piece
  | String c s' =>
      match skip with
      | S k => last_piece sep s' k piece
      | O =>
          if startswith s sep
          then last_piece sep s' (String.length sep - 1) EmptyString
          else last_piece sep s' 0 (piece +:+ String c EmptyString)
      end
  end.

(** [s.split(sep)[0]] *)
Fixpoint first_piece (sep s : string) : string :=
  match s with
  | EmptyString => EmptyString
  | String c s' =>
      if startswith s sep then EmptyString else String c (first_piece sep s')
  end.

Definition recording_sid_of (recording_url recording_sid : string) : string :=
  if truthy recording_url && negb (truthy recording_sid)
  then if py_in "/Recordings/" recording_url
       then first_piece "/" (last_piece "/Recordings/" recording_url 0 EmptyString)
       else recording_sid
  else recording_sid.

(** The in-memory part of [/call_status]: the status of the session is
    assigned, and a terminal status takes the session out of [active_calls]. *)
Definition update_call_history (call_id mapped_status : string) (w : world) : world :=
  match PyDict.get call_id (call_history w) with
  | Some r =>
      let w := with_objects w (alter (set_status mapped_status) r (objects w)) in
      if is_terminal mapped_status
      then match active_calls w !! call_id with
           | Some _ => with_active_calls w (delete call_id (active_calls w))
           | None => w
           end
      else w
  | None => w
  end.

(** [UPDATE call_records SET status = ?, recording_url = ? WHERE call_id = ?] *)
Definition update_record (call_id status recording_url : string)
    (db : list call_record) : list call_record :=
  map (fun row =>
         if bool_decide (r_call_id row = call_id)
         then {| r_call_id := r_call_id row; r_lead_id := r_lead_id row;
                 r_lead_name := r_lead_name row;
                 r_phone_number := r_phone_number row;
                 r_call_start_time := r_call_start_time row;
                 r_status := status;
                 r_conversation_data := r_conversation_data row;
                 r_recording_url := recording_url;
                 r_duration := r_duration row;
                 r_call_sid := r_call_sid row |}
         else row) db.

(** [/call_status].  The call table is updated first; the name
    [save_call_record] is then looked up in the scopes of routes.py. *)
Definition handle_call_status (now : string) (req : status_request) (w : world)
    : world * response :=
  let call_sid := CallSid req in
  let call_id := resolve_call_id w (arg_call_id req) call_sid in
  if negb (truthy call_id) then (w, JsonError 400 "Call ID not found") else
  let mapped_status := mapped_status_of (CallStatus req) in
  let w := update_call_history call_id mapped_status w in
  let recording_sid := recording_sid_of (RecordingUrl req) (RecordingSid req) in
  let res :=
    {| res_status := mapped_status; res_call_sid := Some call_sid;
       res_conversation_data := ""; res_recording_url := recording_sid;
       res_duration := 0 |} in
  match load_name routes_scope "save_call_record" with
  | Raise e => (w, JsonError 500 (str_exn e))
  | Ok _ =>
      let db := save_call_record now call_id (history_entry w call_id) res
                                 (call_records w) in
      let db := update_record call_id mapped_status recording_sid db in
      (with_call_records w db, JsonSuccess mapped_status)
  end.

(** ** States of the running application *)

(** The tables are empty when [create_app] returns; the database file may
    hold rows of earlier runs. *)
Definition initial (w : world) : Prop :=
  objects w = [] ∧ call_history w = [] ∧ active_calls w = ∅.

(** One request or one round of the monitoring thread. *)
Inductive step : world -> world -> Prop :=
| step_monitor leads tw clock now w :
    step w (monitor leads tw clock now w)
| step_handle_call svc now call_id lead_id w :
    step w (handle_call svc now call_id lead_id w).1
| step_handle_call_response svc now call_id speech w :
    step w (handle_call_response svc now call_id speech w).1
| step_handle_call_status now req w :
    step w (handle_call_status now req w).1.

Inductive reachable : world -> Prop :=
| reachable_initial w : initial w -> reachable w
| reachable_step w w' : reachable w -> step w w' -> reachable w'.

(** Distinct sessions are distinct objects, and an active call is the very
    object the history holds under the same id. *)
Record well_formed (w : world) : Prop := {
  wf_allocated : ∀ k r, PyDict.get k (call_history w) = Some r -> r < length (objects w);
  wf_separate : ∀ k k' r, PyDict.get k (call_history w) = Some r ->
                          PyDict.get k' (call_history w) = Some r -> k = k';
  wf_active : ∀ k r, active_calls w !! k = Some r ->
                     PyDict.get k (call_history w) = Some r
}.

(** ** The classifier's signals, as the specification words them *)

(** [k] occurs in [s]. *)
Definition occurs (k s : string) : Prop :=
  ∃ pre post, s = pre +:+ k +:+ post.

(** [k] occurs in [s], letter case apart. *)
Definition occurs_nocase (k s : string) : Prop := occurs (lower k) (lower s).

(** Some turn of [who] holds one of [keywords], letter case apart. *)
Definition signal (keywords : list string) (who : string) (conversation : list turn)
    : Prop :=
  ∃ msg keyword, msg ∈ conversation ∧ speaker msg = who ∧
                 keyword ∈ keywords ∧ occurs_nocase keyword (content msg).

(** ** Meeting-time extraction, as the specification words it *)

(** The turn holds a time-bearing token. *)
Definition time_bearing (msg : turn) : bool :=
  any (fun time_word => py_in time_word (lower (content msg))) time_words.

(** The first caller turn holding a time-bearing token. *)
Definition first_caller_time (conversation : list turn) : option turn :=
  List.find (fun msg => bool_decide (speaker msg = "Caller") && time_bearing msg)
            conversation.

(** The turn holds a scheduling phrase of the agent. *)
Definition confirms (msg : turn) : bool :=
  any (fun keyword => py_in keyword (lower (content msg))) confirmation_keywords.

(** The first turn of [agent] holding a scheduling phrase. *)
Definition first_confirmation (agent : string) (conversation : list turn)
    : option turn :=
  List.find (fun msg => bool_decide (speaker msg = agent) && confirms msg) conversation.

Definition names_3pm (msg : turn) : bool :=
  py_in "3 p.m." (lower (content msg)) || py_in "3 pm" (lower (content msg)).

Definition names_tomorrow (msg : turn) : bool :=
  py_in "tomorrow" (lower (content msg)).

(** ** Sample data *)

(** The instance [__init__] builds from its own defaults. *)
Definition default_instance : AILogic :=
  {| model := "gpt-4"; conversation_memory_turns := 5; agent_name := "Maayaa";
     company_name := "LoanCater"; contact_person := "Ryan";
     conversation_memory := ∅ |}.

(** The conversation of the specification's outcome scenario. *)
Definition scenario_turns : list turn :=
  [ Turn "Caller" "I need equipment financing" "t1";
    Turn "Caller" "around $50,000 for kitchen equipment" "t2";
    Turn "Caller" "tomorrow at 3 PM would work" "t3";
    Turn "Maayaa" "I've scheduled your meeting ... for 3 p.m. tomorrow" "t4" ].

Definition scenario_instance : AILogic :=
  with_memory default_instance (<["call" := scenario_turns]> ∅).

(** A caller who declines, and an agent who says nothing of a meeting. *)
Definition declined_instance : AILogic :=
  with_memory default_instance
    (<["call" := [ Turn "Maayaa" "Hi, do you have a quick moment?" "t1";
                   Turn "Caller" "I'm not interested" "t2" ]]> ∅).

(** A lead, and the worlds one call to it goes through. *)
Definition john : lead := Lead (Some "L1") (Some "John") (Some "Doe") (Some "5551234").

Definition mary : lead := Lead (Some "L2") (Some "Mary") (Some "Major") (Some "5559876").

Definition empty_world : world :=
  {| ai_logic := default_instance; objects := []; call_history := [];
     active_calls := ∅; call_records := []; called_leads := [] |}.

(** After one round of the monitoring thread: the call [call_1700_L1]. *)
Definition dialing_world : world :=
  monitor [john; mary] (TwTuple true (Some "CA1")) 1700 "t0" empty_world.

(** A lifecycle event carrying its call id in the URL. *)
Definition status_event (call_id call_sid call_status : string) : status_request :=
  {| arg_call_id := call_id; CallSid := call_sid; CallStatus := call_status;
     RecordingUrl := ""; RecordingSid := "" |}.

(** The call has been reported completed. *)
Definition completed_world : world :=
  (handle_call_status "t1" (status_event "call_1700_L1" "CA1" "completed") dialing_world).1.

(** A second call, to another lead, next to the first one. *)
Definition two_calls_world : world :=
  monitor [mary] (TwTuple true (Some "CA2")) 1760 "t1" dialing_world.

(** The entry [inner] of the section [section] of a configuration. *)
Definition nested (config : json) (section inner : string) : option json :=
  s ← Config.item config section; Config.item s inner.

(** No section repeats, inside itself, the section its component looks up. *)
Definition unnested (config : json) : Prop :=
  nested config "ai_settings" "openai" = None ∧
  nested config "ghl" "ghl" = None ∧
  nested config "twilio" "twilio" = None.

(** The sections [_merge_with_env_vars] fills in when nothing overrides its
    defaults. *)
Definition default_call_settings : json :=
  JDict [ ("max_call_duration", JInt 300); ("retry_attempts", JInt 2);
          ("call_delay_minutes", JInt 5); ("lead_check_interval_minutes", JInt 10);
          ("business_hours",
           JDict [ ("start", JStr "00:00"); ("end", JStr "23:59");
                   ("timezone", JStr "America/New_York") ]);
          ("voice_settings",
           JDict [ ("voice", JStr "en-US-Neural2-F"); ("speech_rate", JStr "1.0");
                   ("pitch", JStr "1.0"); ("volume", JStr "1.0");
                   ("gender", JStr "female") ]);
          ("conversation_settings",
           JDict [ ("speech_timeout", JStr "auto"); ("gather_timeout", JInt 5);
                   ("language", JStr "en-US"); ("speech_model", JStr "phone_call");
                   ("interruption_threshold", JFloat "0.5");
                   ("speech_timeout_seconds", JFloat "1.5") ]) ].

Definition default_ai_settings : json :=
  JDict [ ("model", JStr "gpt-4"); ("max_tokens", JInt 150);
          ("temperature", JFloat "0.7"); ("conversation_memory_turns", JInt 5);
          ("personality", JStr "professional_friendly");
          ("agent_name", JStr "Maayaa"); ("company_name", JStr "LoanCater");
          ("contact_person", JStr "Ryan");
          ("contact_email", JStr "ryan@loancater.com") ].

(** What [load_config] returns when the five required keys come from the
    environment and there is no config.json. *)
Definition env_config : json :=
  JDict [ ("ghl",
           JDict [ ("api_key", JStr "ghl-key"); ("location_id", JStr "loc-1");
                   ("check_interval_minutes", JInt 10);
                   ("auto_call_enabled", JBool true);
                   ("leads_hours_limit", JInt 24) ]);
          ("openai", JDict [ ("api_key", JStr "sk-key") ]);
          ("twilio",
           JDict [ ("account_sid", JStr "AC1"); ("auth_token", JStr "token");
                   ("phone_number", JStr "") ]);
          ("webhook_base_url", JStr "http://localhost:5000");
          ("call_settings", default_call_settings);
          ("ai_settings", default_ai_settings) ].

(** What [load_config] returns when config.json holds the keys, and holds
    inside its section "ghl" a further section "ghl" with credentials. *)
Definition nested_config : json :=
  JDict [ ("ghl",
           JDict [ ("ghl",
                    JDict [ ("api_key", JStr "ghl-key");
                            ("location_id", JStr "loc-1") ]);
                   ("api_key", JStr "ghl-key"); ("location_id", JStr "loc-1");
                   ("check_interval_minutes", JInt 10);
                   ("auto_call_enabled", JBool true);
                   ("leads_hours_limit", JInt 24) ]);
          ("openai", JDict [ ("api_key", JStr "sk-key") ]);
          ("twilio",
           JDict [ ("account_sid", JStr "AC1"); ("auth_token", JStr "token");
                   ("phone_number", JStr "") ]);
          ("webhook_base_url", JStr "http://localhost:5000");
          ("call_settings", default_call_settings);
          ("ai_settings", default_ai_settings) ].

(** An OpenAI client that raises without a key and answers with one. *)
Definition sample_client (key : json) : generation :=
  fun _ _ => if Config.truthy key then Some "Hello" else None.

(** ** Further functions of the sources *)

(** [clear_conversation] of ai_logic.py: [del] when the key is there. *)
Definition clear_conversation (self : AILogic) (call_id : string) : AILogic :=
  match conversation_memory self !! call_id with
  | Some _ => with_memory self (delete call_id (conversation_memory self))
  | None => self
  end.

(** The number [TwilioIntegration.make_call] dials for a lead. *)
Definition dialled_number (ld : lead) : string :=
  let phone_number := default "" (phone ld) in
  if negb (startswith phone_number "+1") then "+1" +:+ phone_number
  else phone_number.

(** [type(v).__name__] *)
Definition type_name (v : json) : string :=
  match v with
  | JNull => "NoneType"
  | JBool _ => "bool"
  | JInt _ => "int"
  | JFloat _ => "float"
  | JStr _ => "str"
  | JList _ => "list"
  | JDict _ => "dict"
  end.

(** What [request.get_json()] gives: the parsed body, or the exception Flask
    raises, with its text. *)
Inductive json_body :=
| BodyRaises (text : string)
| Body (data : json).

(** What the two calling endpoints return. *)
Inductive endpoint_response :=
| Refused (status : nat) (error : string)   (* jsonify({'error': ..}), status *)
| Initiated (message : string).             (* jsonify({'success': True, 'message': ..}) *)

(** [get_lead_by_id]: nothing without credentials; [remote] is the answer of
    the GoHighLevel API otherwise, [None] on any failure. *)
Definition get_lead_by_id (self : GHLIntegration) (remote : option json) : option json :=
  if negb (Config.truthy (api_key self)) || negb (Config.truthy (location_id self))
  then None
  else remote.

(** The end of both calling endpoints: the name [make_call] is looked up in
    the scopes of routes.py, and what it is bound to, [callee], is called. *)
Definition call_and_answer (callee : json -> world -> world * bool) (ld : json)
    (started failed : string) (w : world) : world * endpoint_response :=
  match load_name routes_scope "make_call" with
  | Raise e => (w, Refused 500 (str_exn e))
  | Ok _ =>
      let '(w', success) := callee ld w in
      if success then (w', Initiated started) else (w', Refused 500 failed)
  end.

(** [/make_call] *)
Definition make_call_endpoint (ghl_integration : GHLIntegration)
    (callee : json -> world -> world * bool) (body : json_body)
    (remote : option json) (w : world) : world * endpoint_response :=
  match body with
  | BodyRaises text => (w, Refused 500 text)
  | Body data =>
      match Config.get data "lead_id" JNull with
      | None => (w, Refused 500 (str_exn (AttributeError (type_name data) "get")))
      | Some lead_id =>
          if negb (Config.truthy lead_id) then (w, Refused 400 "Lead ID required")
          else
            let ld := default JNull (get_lead_by_id ghl_integration remote) in
            if negb (Config.truthy ld) then (w, Refused 404 "Lead not found")
            else call_and_answer callee ld "Call initiated"
                                 "Failed to initiate call" w
      end
  end.

(** [/test_call] *)
Definition test_call (callee : json -> world -> world * bool) (body : json_body)
    (w : world) : world * endpoint_response :=
  match body with
  | BodyRaises text => (w, Refused 500 text)
  | Body data =>
      match Config.get data "phone_number" JNull with
      | None => (w, Refused 500 (str_exn (AttributeError (type_name data) "get")))
      | Some phone_number =>
          if negb (Config.truthy phone_number)
          then (w, Refused 400 "Phone number required")
          else
            let test_lead :=
              JDict [ ("id", JStr "test"); ("firstName", JStr "Test");
                      ("lastName", JStr "User"); ("phone", phone_number) ] in
            call_and_answer callee test_lead "Test call initiated"
                            "Failed to initiate test call" w
      end
  end.

(** The answer of [/health]. *)
Record health := {
  h_status : string;
  h_timestamp : string;
  h_active_calls : nat;
  h_ghl_configured : bool;
  h_twilio_configured : bool;
  h_ai_configured : bool
}.

Definition health_check (now : string) (ai : AILogic_attrs) (ghl_integration : GHLIntegration)
    (twilio_integration : TwilioIntegration) (w : world) : health :=
  {| h_status := "healthy"; h_timestamp := now;
     h_active_calls := size (active_calls w);
     h_ghl_configured := GHLIntegration_is_configured ghl_integration;
     h_twilio_configured := TwilioIntegration_is_configured twilio_integration;
     h_ai_configured := AILogic_is_configured ai |}.

(** The answer of [/call_records/<call_id>]. *)
Inductive record_response :=
| RecordFound (call_id lead_name status conversation_data : string)
              (ai_conversation : list turn) (recording_url : string)
              (duration : Z) (call_start_time : string)
| RecordMissing.                            (* {'error': 'Call not found'}, 404 *)

Definition get_call_record (w : world) (call_id : string) : record_response :=
  match db_record w call_id with
  | Some row =>
      RecordFound call_id (r_lead_name row) (r_status row)
                  (r_conversation_data row)
                  (get_conversation_history (ai_logic w) call_id)
                  (r_recording_url row) (r_duration row) (r_call_start_time row)
  | None => RecordMissing
  end.

(** The call id [make_call] gives a dial at time [clock] to the lead [ld]. *)
Definition call_id_of (clock : nat) (ld : lead) : string :=
  "call_" +:+ of_nat clock +:+ "_" +:+ default "unknown" (lead_key ld).


(** The primary key of [call_records]: one row per call id. *)
Definition primary_key (db : list call_record) : Prop := NoDup (r_call_id <$> db).

(** * Properties *)

(** ** Strings *)

Section Strings.
Implicit Types s p k pre post : string.

Lemma append_nil s : EmptyString +:+ s = s.
Proof. reflexivity. Qed.

Lemma append_cons c s1 s2 : String c s1 +:+ s2 = String c (s1 +:+ s2).
Proof. reflexivity. Qed.

Lemma append_assoc s1 s2 s3 : (s1 +:+ s2) +:+ s3 = s1 +:+ s2 +:+ s3.
Proof.
  induction s1 as [|c s1 IH]; [done |]. by rewrite !append_cons, IH.
Qed.

Lemma startswith_spec s p : startswith s p = true ↔ ∃ post, s = p +:+ post.
Proof.
  revert s. induction p as [|a p IH]; intros s; simpl.
  - split; [intros _; by exists s | done].
  - destruct s as [|b s].
    + split; [done | intros [post Hpost]; discriminate].
    + rewrite andb_true_iff, bool_decide_eq_true, IH. split.
      * intros [-> [post ->]]. by exists post.
      * intros [post Hpost]. rewrite append_cons in Hpost.
        injection Hpost as -> ->. split; [done | by exists post].
Qed.

Lemma py_in_spec k s : py_in k s = true ↔ occurs k s.
Proof.
  split.
  - induction s as [|c s IH]; simpl; rewrite orb_true_iff.
    + intros [H | H]; [| done].
      apply startswith_spec in H as [post H]. by exists EmptyString, post.
    + intros [H | H].
      * apply startswith_spec in H as [post H]. by exists EmptyString, post.
      * destruct (IH H) as (pre & post & ->). by exists (String c pre), post.
  - intros (pre & post & ->). induction pre as [|c pre IH].
    + assert (startswith (k +:+ post) k = true) as H
        by (apply startswith_spec; by exists post).
      rewrite append_nil. destruct (k +:+ post); simpl; by rewrite H.
    + rewrite append_cons. simpl. rewrite IH. apply orb_true_r.
Qed.

Lemma lower_app s1 s2 : lower (s1 +:+ s2) = lower s1 +:+ lower s2.
Proof.
  induction s1 as [|c s1 IH]; [done |].
  rewrite append_cons. simpl. by rewrite IH, append_cons.
Qed.

Lemma occurs_lower k s : occurs k s -> occurs (lower k) (lower s).
Proof.
  intros (pre & post & ->). exists (lower pre), (lower post).
  by rewrite !lower_app.
Qed.

Lemma any_spec {A} (f : A -> bool) (l : list A) :
  any f l = true ↔ ∃ x, x ∈ l ∧ f x = true.
Proof.
  unfold any. rewrite existsb_exists. split.
  - intros (x & Hin & Hx). exists x. by rewrite list_elem_of_In.
  - intros (x & Hin & Hx). exists x. by rewrite <- list_elem_of_In.
Qed.

Lemma any_keyword_spec (keywords : list string) s :
  any (fun keyword => py_in keyword s) keywords = true
  ↔ ∃ keyword, keyword ∈ keywords ∧ occurs keyword s.
Proof.
  rewrite any_spec. split; intros (k & Hk & H); exists k; split; try done;
    by apply py_in_spec.
Qed.

(** The keywords of the classifier are written in lower case, so that
    looking for them in the lower-cased text is a search letter case apart. *)
Lemma keywords_lower_case :
  Forall (fun k => lower k = k) positive_keywords ∧
  Forall (fun k => lower k = k) negative_keywords ∧
  Forall (fun k => lower k = k) meeting_keywords.
Proof. repeat split; repeat (constructor; [reflexivity |]); constructor. Qed.

Lemma any_keyword_nocase (keywords : list string) s :
  Forall (fun k => lower k = k) keywords ->
  any (fun keyword => py_in keyword (lower s)) keywords = true
  ↔ ∃ keyword, keyword ∈ keywords ∧ occurs_nocase keyword s.
Proof.
  intros Hlow. rewrite any_keyword_spec. unfold occurs_nocase.
  split; intros (k & Hk & H); exists k; split; try done;
    by rewrite (proj1 (Forall_forall _ _) Hlow k Hk) in *.
Qed.
End Strings.

(** ** The outcome classifier *)

Section Classifier.
Variable self : AILogic.
Variable call_id : string.

Let conversation := history_of self call_id.
Let result := analyze_conversation_outcome self call_id.

Lemma caller_signal_spec (keywords : list string) :
  Forall (fun k => lower k = k) keywords ->
  any (fun response => any (fun keyword => py_in keyword response) keywords)
      (map (fun msg => lower (content msg))
           (filter (fun msg => speaker msg = "Caller") conversation)) = true
  ↔ signal keywords "Caller" conversation.
Proof.
  intros Hlow. rewrite any_spec. unfold signal. split.
  - intros (response & Hin & Hany).
    apply list_elem_of_fmap in Hin as (msg & -> & Hmsg).
    apply list_elem_of_filter in Hmsg as [Hsp Hmsg].
    apply (any_keyword_nocase _ _ Hlow) in Hany as (keyword & Hk & Hocc).
    by exists msg, keyword.
  - intros (msg & keyword & Hmsg & Hsp & Hk & Hocc).
    exists (lower (content msg)). split.
    + apply list_elem_of_fmap. exists msg. split; [done |].
      by apply list_elem_of_filter.
    + apply (any_keyword_nocase _ _ Hlow). by exists keyword.
Qed.

Lemma positive_response_spec :
  positive_response result = true ↔ signal positive_keywords "Caller" conversation.
Proof. apply caller_signal_spec, keywords_lower_case. Qed.

Lemma negative_response_spec :
  negative_response result = true ↔ signal negative_keywords "Caller" conversation.
Proof. apply caller_signal_spec, keywords_lower_case. Qed.

Lemma meeting_scheduled_spec :
  meeting_scheduled result = true
  ↔ signal meeting_keywords (agent_name self) conversation.
Proof.
  pose proof (proj2 (proj2 keywords_lower_case)) as Hlow.
  unfold result, analyze_conversation_outcome. cbn [meeting_scheduled].
  rewrite any_spec. unfold signal. fold conversation. split.
  - intros (msg & Hmsg & Hany).
    apply list_elem_of_filter in Hmsg as [Hsp Hmsg].
    apply (any_keyword_nocase _ _ Hlow) in Hany as (keyword & Hk & Hocc).
    by exists msg, keyword.
  - intros (msg & keyword & Hmsg & Hsp & Hk & Hocc).
    exists msg. split; [by apply list_elem_of_filter |].
    apply (any_keyword_nocase _ _ Hlow). by exists keyword.
Qed.

Lemma outcome_by_signals :
  outcome result =
    if positive_response result && meeting_scheduled result then "positive_meeting"
    else if positive_response result then "positive"
    else if negative_response result then "negative"
    else "neutral".
Proof. reflexivity. Qed.
End Classifier.

(** C6.  The classifier computes the three keyword signals of the
    specification (a positive phrase in some caller turn, a negative phrase in
    some caller turn, a scheduling phrase in some agent turn, each looked for
    as a substring, letter case apart) and ranks them: positive and meeting
    give positive_meeting, else positive alone gives positive, else negative
    gives negative, else neutral. *)
Theorem C6_outcome_precedence (self : AILogic) (call_id : string) :
  let conversation := history_of self call_id in
  let result := analyze_conversation_outcome self call_id in
  let P := signal positive_keywords "Caller" conversation in
  let N := signal negative_keywords "Caller" conversation in
  let M := signal meeting_keywords (agent_name self) conversation in
  (positive_response result = true ↔ P) ∧
  (negative_response result = true ↔ N) ∧
  (meeting_scheduled result = true ↔ M) ∧
  (P ∧ M -> outcome result = "positive_meeting") ∧
  (P ∧ ¬ M -> outcome result = "positive") ∧
  (¬ P ∧ N -> outcome result = "negative") ∧
  (¬ P ∧ ¬ N -> outcome result = "neutral").
Proof.
  intros conversation result P N M.
  pose proof (positive_response_spec self call_id) as HP.
  pose proof (negative_response_spec self call_id) as HN.
  pose proof (meeting_scheduled_spec self call_id) as HM.
  fold result conversation P N M in HP, HN, HM.
  do 3 (split; [done |]).
  unfold result at 1 2 3 4. rewrite (outcome_by_signals self call_id).
  fold result.
  destruct (positive_response result), (negative_response result),
    (meeting_scheduled result); simpl;
    repeat split; intros [? ?]; try done;
    try (exfalso; intuition congruence).
Qed.

Lemma C6_outcome_precedence_witness :
  signal positive_keywords "Caller" (history_of scenario_instance "call") ∧
  signal meeting_keywords (agent_name scenario_instance)
         (history_of scenario_instance "call") ∧
  outcome (analyze_conversation_outcome scenario_instance "call") = "positive_meeting".
Proof.
  destruct (C6_outcome_precedence scenario_instance "call")
    as (HP & _ & HM & Hrank & _).
  assert (signal positive_keywords "Caller" (history_of scenario_instance "call"))
    as Hpos by (apply HP; vm_compute; reflexivity).
  assert (signal meeting_keywords (agent_name scenario_instance)
                 (history_of scenario_instance "call"))
    as Hmeet by (apply HM; vm_compute; reflexivity).
  split; [exact Hpos | split; [exact Hmeet |]].
  exact (Hrank (conj Hpos Hmeet)).
Defined.

Lemma interested_is_positive (self : AILogic) (call_id : string) (msg : turn) :
  msg ∈ history_of self call_id -> speaker msg = "Caller" ->
  occurs_nocase "interested" (content msg) ->
  signal positive_keywords "Caller" (history_of self call_id).
Proof.
  intros Hin Hsp Hocc. exists msg, "interested".
  repeat split; try done. unfold positive_keywords. set_solver.
Qed.

(** C10.  When some caller turn contains "interested" (so also when it says
    "not interested"), the classifier never answers negative: it answers
    positive_meeting when an agent turn holds a scheduling phrase and positive
    otherwise. *)
Theorem C10_interested_never_negative (self : AILogic) (call_id : string) (msg : turn) :
  msg ∈ history_of self call_id ->
  speaker msg = "Caller" ->
  occurs "interested" (content msg) ->
  let result := analyze_conversation_outcome self call_id in
  let M := signal meeting_keywords (agent_name self) (history_of self call_id) in
  outcome result ≠ "negative" ∧
  (M -> outcome result = "positive_meeting") ∧
  (¬ M -> outcome result = "positive").
Proof.
  intros Hin Hsp Hocc result M.
  assert (signal positive_keywords "Caller" (history_of self call_id)) as HP.
  { apply (interested_is_positive self call_id msg Hin Hsp).
    exact (occurs_lower "interested" (content msg) Hocc). }
  apply (positive_response_spec self call_id) in HP. fold result in HP.
  pose proof (meeting_scheduled_spec self call_id) as HM. fold result M in HM.
  assert (outcome result =
            if meeting_scheduled result then "positive_meeting" else "positive")
    as Hout.
  { unfold result. rewrite (outcome_by_signals self call_id). fold result.
    by rewrite HP. }
  rewrite Hout. clear Hout.
  destruct (meeting_scheduled result).
  - split; [done |]. split; [done |].
    intros HnM. exfalso. by apply HnM, HM.
  - split; [done |]. split; [| done].
    intros Hmeet. apply HM in Hmeet. discriminate.
Qed.

Lemma C10_interested_never_negative_witness :
  outcome (analyze_conversation_outcome declined_instance "call") ≠ "negative" ∧
  outcome (analyze_conversation_outcome declined_instance "call") = "positive".
Proof.
  assert (Turn "Caller" "I'm not interested" "t2" ∈ history_of declined_instance "call")
    as Hin by (vm_compute; set_solver).
  assert (occurs "interested" "I'm not interested") as Hocc
    by (apply py_in_spec; vm_compute; reflexivity).
  destruct (C10_interested_never_negative declined_instance "call"
              (Turn "Caller" "I'm not interested" "t2") Hin eq_refl Hocc)
    as (Hneg & _ & Hpos).
  split; [exact Hneg |]. apply Hpos.
  intros HM. apply (meeting_scheduled_spec declined_instance "call") in HM.
  vm_compute in HM. discriminate.
Defined.

(** ** Meeting-time extraction *)

Lemma caller_time_spec (conversation : list turn) (meeting_time : option string) :
  caller_time conversation meeting_time =
    match first_caller_time conversation with
    | Some msg => Some (content msg)
    | None => meeting_time
    end.
Proof.
  induction conversation as [|msg rest IH]; [done |].
  unfold first_caller_time in *. simpl. unfold time_bearing at 1.
  destruct (bool_decide (speaker msg = "Caller") && _); [done | exact IH].
Qed.

Lemma agent_time_spec (agent : string) (conversation : list turn)
    (meeting_time : option string) :
  agent_time agent conversation meeting_time =
    match first_confirmation agent conversation with
    | Some msg =>
        if names_3pm msg then Some "3:00 PM MST"
        else if names_tomorrow msg then Some "Tomorrow (Time TBD)"
        else meeting_time
    | None => meeting_time
    end.
Proof.
  induction conversation as [|msg rest IH]; [done |].
  unfold first_confirmation in *. simpl. unfold confirms at 1.
  destruct (bool_decide (speaker msg = agent) && _); [done | exact IH].
Qed.

(** C2 (as amended).  The caller turns are scanned first, but the agent's
    confirmation has the last word: the result is "3:00 PM MST" when the first
    agent turn holding a scheduling phrase names 3 p.m., "Tomorrow (Time TBD)"
    when it names tomorrow only, and the literal text of the first caller turn
    holding a time-bearing token in every other case.  For the scenario of the
    specification the classifier answers positive_meeting and the meeting time
    is "3:00 PM MST". *)
Theorem C2_agent_confirmation_overrides_caller_time :
  (∀ (self : AILogic) (call_id : string),
     let conversation := history_of self call_id in
     let from_caller := content <$> first_caller_time conversation in
     extract_meeting_details self call_id =
       match first_confirmation (agent_name self) conversation with
       | Some msg =>
           if names_3pm msg then Some "3:00 PM MST"
           else if names_tomorrow msg then Some "Tomorrow (Time TBD)"
           else from_caller
       | None => from_caller
       end) ∧
  outcome (analyze_conversation_outcome scenario_instance "call") = "positive_meeting" ∧
  extract_meeting_details scenario_instance "call" = Some "3:00 PM MST".
Proof.
  split; [| split; vm_compute; reflexivity].
  intros self call_id conversation from_caller.
  unfold extract_meeting_details. fold conversation.
  rewrite agent_time_spec, caller_time_spec.
  unfold from_caller. by destruct (first_caller_time conversation).
Qed.

(** C2, as stated, fails on the scenario of the specification.  A caller
    turn holds a time-bearing token; the first one that does is "I need
    equipment financing" (the letters "pm" of "equipment"); the value returned
    is neither that text nor "tomorrow at 3 PM would work". *)
Lemma C2_caller_text_not_returned :
  content <$> first_caller_time (history_of scenario_instance "call")
    = Some "I need equipment financing" ∧
  extract_meeting_details scenario_instance "call"
    ≠ content <$> first_caller_time (history_of scenario_instance "call") ∧
  extract_meeting_details scenario_instance "call" ≠ Some "tomorrow at 3 PM would work".
Proof. repeat split; vm_compute; (reflexivity || discriminate). Qed.

(** ** The dialogue engine *)

(** C5.  The system prompt of a request depends on the conversation only
    through the number of stored turns: the opening template for none, the
    qualification template for one or two, the scheduling template for more. *)
Theorem C5_stage_by_turn_count (self : AILogic) (lead_info : lead)
    (context call_id : string) :
  head (generate_request self lead_info context call_id) =
    Some (ChatMessage "system"
            match length (history_of self call_id) with
            | 0 => opening_prompt self (lead_name_of lead_info)
            | 1 | 2 => qualification_prompt self
            | S (S (S _)) => scheduling_prompt self (lead_name_of lead_info)
            end).
Proof.
  unfold generate_request, _build_messages, _build_system_prompt.
  destruct (truthy context); simpl;
    by destruct (length (history_of self call_id)) as [|[|[|n]]].
Qed.

(** The request is what [generate_response] sends, and a failed generation
    changes nothing. *)
Lemma generate_response_failure (self : AILogic) (svc : generation) (now : string)
    (lead_info : lead) (context call_id : string) :
  svc (model self) (generate_request self lead_info context call_id) = None ->
  generate_response self svc now lead_info context call_id = (self, apology).
Proof. intros H. unfold generate_response. by rewrite H. Qed.

(** What one append does to every history. *)
Lemma history_of_append (self : AILogic) (x y : string) (entry : turn) :
  history_of (memory_append self x entry) y =
    if bool_decide (y = x) then history_of self x ++ [entry] else history_of self y.
Proof.
  unfold history_of, memory_append. simpl. case_bool_decide as Hy.
  - subst y. by rewrite lookup_insert_eq.
  - by rewrite lookup_insert_ne.
Qed.

(** C3 (as amended).  [generate_response] never propagates a failure of the
    generation service, but it appends no apology.  When the call raises
    (exception, timeout, provider error, a result without a choice or without
    content), the answer is the fixed apology and the conversation memory is
    left as it was: no turn is appended.  When the service returns an empty
    or blank text, the answer is the empty string, not the apology, and that
    empty string is appended as one turn of the agent to the history of the
    call, and to no history when the call id is empty. *)
Theorem C3_generation_failure_modes (self : AILogic) (svc : generation)
    (now : string) (lead_info : lead) (context call_id : string) :
  let reply := svc (model self) (generate_request self lead_info context call_id) in
  let out := generate_response self svc now lead_info context call_id in
  (reply = None ->
   out.2 = apology ∧ out.1 = self ∧
   length (history_of out.1 call_id) = length (history_of self call_id)) ∧
  (∀ text, reply = Some text -> strip text = EmptyString ->
   out.2 = EmptyString ∧ out.2 ≠ apology ∧
   ∀ y, history_of out.1 y =
        if bool_decide (y = call_id) && truthy call_id
        then history_of self y ++ [Turn (agent_name self) EmptyString now]
        else history_of self y).
Proof.
  intros reply out. split.
  - intros Hraise. unfold out.
    by rewrite (generate_response_failure _ _ _ _ _ _ Hraise).
  - intros text Hreply Hblank. unfold out, generate_response.
    fold reply. rewrite Hreply, Hblank. cbn [fst snd].
    split; [done |]. split; [done |]. intros y.
    destruct (truthy call_id).
    + rewrite history_of_append, andb_true_r.
      case_bool_decide; [by subst | done].
    + by rewrite andb_false_r.
Qed.

Lemma C3_generation_failure_modes_witness :
  (generate_response scenario_instance (fun _ _ => None) "now" john
                     EmptyString "call").2 = apology ∧
  (generate_response scenario_instance (fun _ _ => None) "now" john
                     EmptyString "call").1 = scenario_instance ∧
  (generate_response scenario_instance (fun _ _ => Some "   ") "now" john
                     EmptyString "call").2 = EmptyString ∧
  history_of (generate_response scenario_instance (fun _ _ => Some "   ") "now"
                                john EmptyString "call").1 "call"
  = scenario_turns ++ [Turn "Maayaa" EmptyString "now"].
Proof.
  destruct (C3_generation_failure_modes scenario_instance (fun _ _ => None)
              "now" john EmptyString "call") as [Hraise _].
  destruct (C3_generation_failure_modes scenario_instance (fun _ _ => Some "   ")
              "now" john EmptyString "call") as [_ Hblank].
  destruct (Hraise eq_refl) as (Hanswer & Hself & _).
  destruct (Hblank "   " eq_refl eq_refl) as (Hanswer' & _ & Hhistory).
  split; [exact Hanswer |]. split; [exact Hself |]. split; [exact Hanswer' |].
  exact (Hhistory "call").
Defined.

(** C3, as stated, fails for either kind of failure, here on the scenario
    conversation of four turns: after a call that raised, the apology is
    returned but the history has not grown; after a blank result, the answer
    is the empty string, not the apology, and the turn appended is empty. *)
Lemma C3_failure_appends_no_apology :
  (let '(self', answer) :=
     generate_response scenario_instance (fun _ _ => None) "now" john
                       EmptyString "call" in
   answer = apology ∧
   length (history_of self' "call") = 4 ∧
   length (history_of scenario_instance "call") = 4) ∧
  (let '(self', answer) :=
     generate_response scenario_instance (fun _ _ => Some "   ") "now" john
                       EmptyString "call" in
   answer = EmptyString ∧ answer ≠ apology ∧
   history_of self' "call" = scenario_turns ++ [Turn "Maayaa" EmptyString "now"]).
Proof.
  split.
  - vm_compute. by repeat split.
  - vm_compute. by repeat split.
Qed.

(** ** The call table *)

Lemma get_set {V} (k k' : string) (v : V) (d : list (string * V)) :
  PyDict.get k' (PyDict.set k v d) =
    if bool_decide (k = k') then Some v else PyDict.get k' d.
Proof.
  induction d as [|[k0 v0] d IH]; simpl; [done |].
  destruct (decide (k0 = k)) as [-> | Hk0].
  - rewrite bool_decide_eq_true_2 by done. simpl.
    by destruct (bool_decide (k = k')).
  - rewrite bool_decide_eq_false_2 by done. simpl. rewrite IH.
    destruct (decide (k0 = k')) as [-> | Hk'].
    + rewrite bool_decide_eq_true_2 by done.
      by rewrite bool_decide_eq_false_2 by congruence.
    + by rewrite (bool_decide_eq_false_2 (k0 = k')) by done.
Qed.

Lemma save_call_record_unbound :
  load_name routes_scope "save_call_record" = Raise (NameError "save_call_record").
Proof. vm_compute. reflexivity. Qed.

Lemma store_ai_response_missing :
  load_store_ai_response = Raise (AttributeError "AILogic" "store_ai_response").
Proof. vm_compute. reflexivity. Qed.

Lemma mark_lead_as_called_missing :
  getattr "GHLIntegration" (GHLIntegration_fields ++ GHLIntegration_methods)
          "mark_lead_as_called"
  = Raise (AttributeError "GHLIntegration" "mark_lead_as_called").
Proof. vm_compute. reflexivity. Qed.

(** What [/call_status] does to the state, and what it answers. *)
Lemma handle_call_status_eq (now : string) (req : status_request) (w : world) :
  handle_call_status now req w =
    let call_id := resolve_call_id w (arg_call_id req) (CallSid req) in
    if truthy call_id
    then (update_call_history call_id (mapped_status_of (CallStatus req)) w,
          JsonError 500 "name 'save_call_record' is not defined")
    else (w, JsonError 400 "Call ID not found").
Proof.
  unfold handle_call_status. rewrite save_call_record_unbound. simpl.
  by destruct (truthy _).
Qed.

(** The database rows of the other calls, through the two statements of
    [/call_status] that write. *)
Lemma find_insert_or_replace (row : call_record) (y : string) (db : list call_record) :
  r_call_id row ≠ y ->
  List.find (fun old => bool_decide (r_call_id old = y)) (insert_or_replace row db)
  = List.find (fun old => bool_decide (r_call_id old = y)) db.
Proof.
  intros Hne. unfold insert_or_replace.
  induction db as [|a db IH]; simpl.
  - by rewrite bool_decide_eq_false_2.
  - rewrite filter_cons. destruct (decide (r_call_id a = y)) as [Hy | Hy].
    + rewrite decide_True by congruence. simpl.
      by rewrite !bool_decide_eq_true_2.
    + rewrite (bool_decide_eq_false_2 _ Hy).
      case_decide; simpl; [rewrite (bool_decide_eq_false_2 _ Hy) |]; exact IH.
Qed.

Lemma find_update_record (x y status recording_url : string) (db : list call_record) :
  y ≠ x ->
  List.find (fun old => bool_decide (r_call_id old = y))
            (update_record x status recording_url db)
  = List.find (fun old => bool_decide (r_call_id old = y)) db.
Proof.
  intros Hne. unfold update_record.
  induction db as [|a db IH]; simpl; [done |].
  destruct (decide (r_call_id a = x)) as [Hx | Hx].
  - rewrite (bool_decide_eq_true_2 _ Hx). simpl.
    rewrite !bool_decide_eq_false_2 by congruence. exact IH.
  - rewrite (bool_decide_eq_false_2 _ Hx).
    destruct (bool_decide (r_call_id a = y)); [done | exact IH].
Qed.

(** The state after [/call_status], whether or not [save_call_record] can
    be called from routes.py: the call table is updated, and the database is
    either untouched or rewritten at the row of the call. *)
Lemma handle_call_status_cases (now : string) (req : status_request) (w : world) :
  let x := resolve_call_id w (arg_call_id req) (CallSid req) in
  let status := mapped_status_of (CallStatus req) in
  let w1 := update_call_history x status w in
  (truthy x = false ∧ (handle_call_status now req w).1 = w) ∨
  (truthy x = true ∧
   ((handle_call_status now req w).1 = w1 ∨
    ∃ res recording_sid,
      (handle_call_status now req w).1 =
        with_call_records w1
          (update_record x status recording_sid
             (save_call_record now x (history_entry w1 x) res (call_records w1))))).
Proof.
  intros x status w1. unfold handle_call_status. fold x. fold status. fold w1.
  destruct (truthy x); [right | by left].
  split; [done |]. cbv zeta.
  destruct (load_name routes_scope "save_call_record"); [right | by left].
  exists {| res_status := status; res_call_sid := Some (CallSid req);
            res_conversation_data := "";
            res_recording_url :=
              recording_sid_of (RecordingUrl req) (RecordingSid req);
            res_duration := 0 |},
         (recording_sid_of (RecordingUrl req) (RecordingSid req)).
  reflexivity.
Qed.

Section UpdateCallHistory.
Variables (x status : string) (w : world).

Let w' := update_call_history x status w.

Lemma update_keeps_history : call_history w' = call_history w.
Proof.
  unfold w', update_call_history.
  destruct (PyDict.get x (call_history w)); [| done].
  destruct (is_terminal status); [| done].
  by destruct (active_calls _ !! x).
Qed.

Lemma update_keeps_records : call_records w' = call_records w.
Proof.
  unfold w', update_call_history.
  destruct (PyDict.get x (call_history w)); [| done].
  destruct (is_terminal status); [| done].
  by destruct (active_calls _ !! x).
Qed.

Lemma update_keeps_called_leads : called_leads w' = called_leads w.
Proof.
  unfold w', update_call_history.
  destruct (PyDict.get x (call_history w)); [| done].
  destruct (is_terminal status); [| done].
  by destruct (active_calls _ !! x).
Qed.

Lemma update_objects :
  objects w' = match PyDict.get x (call_history w) with
               | Some r => alter (set_status status) r (objects w)
               | None => objects w
               end.
Proof.
  unfold w', update_call_history.
  destruct (PyDict.get x (call_history w)); [| done].
  destruct (is_terminal status); [| done].
  by destruct (active_calls _ !! x).
Qed.

Lemma update_active_other (y : string) :
  y ≠ x -> active_calls w' !! y = active_calls w !! y.
Proof.
  intros Hne. unfold w', update_call_history.
  destruct (PyDict.get x (call_history w)); [| done].
  destruct (is_terminal status); [| done]. simpl.
  destruct (active_calls w !! x); [| done]. simpl.
  by rewrite lookup_delete_ne.
Qed.

Lemma update_active_sub (y : string) (r : nat) :
  active_calls w' !! y = Some r -> active_calls w !! y = Some r.
Proof.
  unfold w', update_call_history.
  destruct (PyDict.get x (call_history w)); [| done].
  destruct (is_terminal status); [| done]. simpl.
  destruct (active_calls w !! x) eqn:Hx; [| done]. simpl.
  destruct (decide (y = x)) as [-> | Hne].
  - by rewrite lookup_delete_eq.
  - by rewrite lookup_delete_ne.
Qed.

(** The session the event is attributed to takes the event's status. *)
Lemma update_entry_same (info : call_info) :
  history_entry w x = Some info ->
  history_entry w' x = Some (set_status status info).
Proof.
  unfold history_entry. rewrite update_keeps_history, update_objects.
  destruct (PyDict.get x (call_history w)) as [r |]; [| done]. simpl.
  intros Hr. by rewrite list_lookup_alter_eq, Hr.
Qed.

(** Every other session keeps its dict. *)
Lemma update_entry_other (y : string) :
  well_formed w -> y ≠ x -> history_entry w' y = history_entry w y.
Proof.
  intros Hwf Hne. unfold history_entry.
  rewrite update_keeps_history, update_objects.
  destruct (PyDict.get y (call_history w)) as [ry |] eqn:Hy; [| done]. simpl.
  destruct (PyDict.get x (call_history w)) as [rx |] eqn:Hx; [| done].
  apply list_lookup_alter_ne. intros ->.
  apply Hne. symmetry. exact (wf_separate w Hwf x y ry Hx Hy).
Qed.

Lemma update_active_entry_other (y : string) :
  well_formed w -> y ≠ x -> active_entry w' y = active_entry w y.
Proof.
  intros Hwf Hne. unfold active_entry.
  rewrite update_active_other by done. rewrite update_objects.
  destruct (active_calls w !! y) as [ry |] eqn:Hy; [| done]. simpl.
  destruct (PyDict.get x (call_history w)) as [rx |] eqn:Hx; [| done].
  apply list_lookup_alter_ne. intros ->.
  apply Hne. symmetry.
  exact (wf_separate w Hwf x y ry Hx (wf_active w Hwf y ry Hy)).
Qed.

Lemma update_well_formed : well_formed w -> well_formed w'.
Proof.
  intros [Ha Hs Hact]. split.
  - intros k r. rewrite update_keeps_history, update_objects. intros Hk.
    destruct (PyDict.get x (call_history w)); [rewrite length_alter |]; eauto.
  - intros k k' r. rewrite update_keeps_history. eauto.
  - intros k r Hk. rewrite update_keeps_history.
    apply Hact. by apply update_active_sub.
Qed.
End UpdateCallHistory.

(** Only the two tables and the heap matter to [well_formed]. *)
Lemma well_formed_ext (w w' : world) :
  objects w' = objects w -> call_history w' = call_history w ->
  active_calls w' = active_calls w -> well_formed w -> well_formed w'.
Proof.
  intros Ho Hh Hact [H1 H2 H3].
  split; rewrite ?Ho, ?Hh, ?Hact; eauto.
Qed.

Lemma initial_well_formed (w : world) : initial w -> well_formed w.
Proof.
  intros (Ho & Hh & Hact). split; rewrite ?Hh, ?Hact; done.
Qed.

(** A new dict stored in the history under [k], also made the active call
    [k] or not: the new reference is fresh, so the sessions stay apart. *)
Lemma history_store_well_formed (w : world) (k : string) (info : call_info)
    (activate : bool) :
  well_formed w ->
  (activate = false -> PyDict.get k (call_history w) = None) ->
  let w1 := history_store w k info in
  well_formed
    (if activate
     then with_active_calls w1 (<[k := length (objects w)]> (active_calls w1))
     else w1).
Proof.
  intros [Ha Hs Hact] Hnew w1.
  set (w2 := if activate then _ else _).
  assert (objects w2 = objects w ++ [info]) as Ho by (by destruct activate).
  assert (call_history w2 = PyDict.set k (length (objects w)) (call_history w))
    as Hh by (by destruct activate).
  assert (∀ k' r, PyDict.get k' (call_history w2) = Some r ->
                  (k' = k ∧ r = length (objects w)) ∨
                  (k' ≠ k ∧ PyDict.get k' (call_history w) = Some r)) as Hget.
  { intros k' r. rewrite Hh, get_set.
    case_bool_decide; intros Hk'; simplify_eq; auto. }
  split.
  - intros k' r Hk'. rewrite Ho, length_app. simpl.
    destruct (Hget k' r Hk') as [[_ ->] | [_ Hold]]; [lia |].
    apply Ha in Hold. lia.
  - intros k1 k2 r H1 H2.
    destruct (Hget k1 r H1) as [[-> Hr1] | [Hne1 Hold1]],
             (Hget k2 r H2) as [[-> Hr2] | [Hne2 Hold2]]; try done.
    + subst r. apply Ha in Hold2. lia.
    + subst r. apply Ha in Hold1. lia.
    + eauto.
  - intros k' r. rewrite Hh, get_set. unfold w2. destruct activate; simpl.
    + destruct (decide (k = k')) as [<- | Hne].
      * rewrite lookup_insert_eq. intros [= <-].
        by rewrite bool_decide_eq_true_2.
      * rewrite lookup_insert_ne by done. intros Hk'%Hact.
        by rewrite bool_decide_eq_false_2.
    + intros Hk'%Hact. case_bool_decide; [| done].
      subst k'. rewrite Hnew in Hk'; done.
Qed.

Lemma make_call_well_formed (tw : twilio_result) (clock : nat) (now : string)
    (ld : lead) (w : world) :
  well_formed w -> well_formed (make_call tw clock now ld w).1.
Proof.
  intros Hwf. unfold make_call.
  destruct tw as [| [|] call_sid]; try done.
  rewrite mark_lead_as_called_missing. simpl.
  set (k := "call_" +:+ _).
  set (info := {| ci_call_id := k |}).
  pose proof (history_store_well_formed w k info true Hwf) as H.
  simpl in H. eapply well_formed_ext; [| | | apply H]; done.
Qed.

Lemma handle_call_well_formed (svc : generation) (now call_id lead_id : string)
    (w : world) :
  well_formed w -> well_formed (handle_call svc now call_id lead_id w).1.
Proof.
  intros Hwf. unfold handle_call.
  destruct (negb (truthy call_id)); [done |].
  rewrite store_ai_response_missing.
  set (w1 := if PyDict.mem call_id (call_history w) then w else _).
  assert (well_formed w1) as Hwf1.
  { unfold w1, PyDict.mem.
    destruct (PyDict.get call_id (call_history w)) eqn:Hget; [done |].
    by apply (history_store_well_formed w call_id _ false). }
  destruct (generate_response _ _ _ _ _ _) as [ai answer]. simpl.
  by eapply well_formed_ext; [| | | apply Hwf1].
Qed.

Lemma handle_call_response_well_formed (svc : generation)
    (now call_id speech : string) (w : world) :
  well_formed w -> well_formed (handle_call_response svc now call_id speech w).1.
Proof.
  intros Hwf. unfold handle_call_response.
  destruct (negb (truthy call_id)); [done |].
  rewrite store_ai_response_missing.
  destruct (generate_response _ _ _ _ _ _) as [ai answer]. simpl.
  by eapply well_formed_ext; [| | | apply Hwf].
Qed.

Lemma handle_call_status_well_formed (now : string) (req : status_request)
    (w : world) :
  well_formed w -> well_formed (handle_call_status now req w).1.
Proof.
  intros Hwf.
  destruct (handle_call_status_cases now req w)
    as [[_ ->] | [_ [-> | (res & sid & ->)]]]; [done | |].
  - by apply update_well_formed.
  - eapply well_formed_ext; [| | | by apply update_well_formed]; done.
Qed.

Lemma step_well_formed (w w' : world) : step w w' -> well_formed w -> well_formed w'.
Proof.
  intros Hstep Hwf. destruct Hstep.
  - unfold monitor. destruct (monitor_pick leads w); [| done].
    by apply make_call_well_formed.
  - by apply handle_call_well_formed.
  - by apply handle_call_response_well_formed.
  - by apply handle_call_status_well_formed.
Qed.

(** Every state the application reaches keeps its sessions apart. *)
Lemma reachable_well_formed (w : world) : reachable w -> well_formed w.
Proof.
  induction 1 as [w Hinit | w w' _ IH Hstep].
  - by apply initial_well_formed.
  - by apply (step_well_formed w w').
Qed.

Lemma completed_world_reachable : reachable completed_world.
Proof.
  eapply reachable_step; [| apply step_handle_call_status].
  eapply reachable_step; [| apply step_monitor].
  apply reachable_initial. by repeat split.
Qed.

(** C1 (as amended).  [/call_status] protects no status: for every session
    of the call table and every event attributed to it, the session's status
    becomes the status the event maps to, whatever it was before, terminal or
    not; the other fields of the session stay as they were.  Hence only an
    event with the same status leaves a terminal status in place. *)
Theorem C1_status_follows_latest_event (now : string) (req : status_request)
    (w : world) (x : string) (info : call_info) :
  resolve_call_id w (arg_call_id req) (CallSid req) = x ->
  truthy x = true ->
  history_entry w x = Some info ->
  history_entry (handle_call_status now req w).1 x
    = Some (set_status (mapped_status_of (CallStatus req)) info).
Proof.
  intros Hx Hne Hinfo.
  destruct (handle_call_status_cases now req w)
    as [[Hempty _] | [_ [-> | (res & sid & ->)]]].
  - congruence.
  - rewrite Hx. by apply update_entry_same.
  - rewrite Hx. change (history_entry (with_call_records ?w0 _) x)
      with (history_entry w0 x). by apply update_entry_same.
Qed.

Lemma C1_status_follows_latest_event_witness :
  ci_status <$> history_entry completed_world "call_1700_L1" = Some "completed" ∧
  ci_status <$>
    history_entry
      (handle_call_status "t2" (status_event "call_1700_L1" "CA1" "busy")
                          completed_world).1 "call_1700_L1"
    = Some "busy".
Proof.
  split; [vm_compute; reflexivity |].
  rewrite (C1_status_follows_latest_event "t2"
             (status_event "call_1700_L1" "CA1" "busy") completed_world
             "call_1700_L1"
             (set_status "completed"
                {| ci_call_id := "call_1700_L1"; ci_call_sid := Some "CA1";
                   ci_lead_info := Some john; ci_lead_id := None;
                   ci_start_time := "t0"; ci_status := "initiated" |}));
    vm_compute; reflexivity.
Defined.

(** C1, as stated, fails.  In a state the application reaches, the call is
    recorded completed; a later event "failed", itself terminal, replaces
    that status, and a later event "ringing" takes the session out of the
    terminal statuses. *)
Lemma C1_terminal_status_overwritten :
  reachable completed_world ∧
  ci_status <$> history_entry completed_world "call_1700_L1" = Some "completed" ∧
  is_terminal "completed" = true ∧
  is_terminal (mapped_status_of "failed") = true ∧
  ci_status <$>
    history_entry
      (handle_call_status "t2" (status_event "call_1700_L1" "CA1" "failed")
                          completed_world).1 "call_1700_L1"
    = Some "failed" ∧
  ci_status <$>
    history_entry
      (handle_call_status "t2" (status_event "call_1700_L1" "CA1" "ringing")
                          completed_world).1 "call_1700_L1"
    = Some "ringing" ∧
  is_terminal "ringing" = false.
Proof.
  split; [exact completed_world_reachable |].
  repeat split; vm_compute; reflexivity.
Qed.

(** The frame of one status event, in any state that keeps its sessions
    apart. *)
Lemma status_event_frame (now : string) (req : status_request) (w : world)
    (y : string) :
  well_formed w ->
  y ≠ resolve_call_id w (arg_call_id req) (CallSid req) ->
  let w' := (handle_call_status now req w).1 in
  history_entry w' y = history_entry w y ∧
  active_entry w' y = active_entry w y ∧
  db_record w' y = db_record w y.
Proof.
  intros Hwf Hne w'. unfold w'.
  destruct (handle_call_status_cases now req w)
    as [[_ ->] | [_ [-> | (res & sid & ->)]]]; [done | |].
  - split; [by apply update_entry_other |].
    split; [by apply update_active_entry_other |].
    unfold db_record. by rewrite update_keeps_records.
  - split; [by apply update_entry_other |].
    split; [by apply update_active_entry_other |].
    unfold db_record, save_call_record. simpl.
    rewrite find_update_record by done.
    rewrite find_insert_or_replace by (simpl; congruence).
    by rewrite update_keeps_records.
Qed.

(** C7.  In every state the application reaches, a lifecycle event
    attributed to the session [x] leaves every other session [y] as it was:
    its dict in the call history, its dict in the active calls and its row in
    the database. *)
Theorem C7_status_event_frame (now : string) (req : status_request) (w : world)
    (x y : string) :
  reachable w ->
  resolve_call_id w (arg_call_id req) (CallSid req) = x ->
  y ≠ x ->
  let w' := (handle_call_status now req w).1 in
  history_entry w' y = history_entry w y ∧
  active_entry w' y = active_entry w y ∧
  db_record w' y = db_record w y.
Proof.
  intros Hreach Hx Hne.
  apply status_event_frame; [by apply reachable_well_formed | congruence].
Qed.

Lemma two_calls_world_reachable : reachable two_calls_world.
Proof.
  eapply reachable_step; [| apply step_monitor].
  eapply reachable_step; [| apply step_monitor].
  apply reachable_initial. by repeat split.
Qed.

Lemma C7_status_event_frame_witness :
  let w' := (handle_call_status "t2" (status_event "call_1700_L1" "CA1" "completed")
                                two_calls_world).1 in
  ci_status <$> history_entry w' "call_1700_L1" = Some "completed" ∧
  history_entry w' "call_1760_L2" = history_entry two_calls_world "call_1760_L2" ∧
  active_entry w' "call_1760_L2" = active_entry two_calls_world "call_1760_L2" ∧
  db_record w' "call_1760_L2" = db_record two_calls_world "call_1760_L2".
Proof.
  split; [vm_compute; reflexivity |].
  apply (C7_status_event_frame "t2" (status_event "call_1700_L1" "CA1" "completed")
           two_calls_world "call_1700_L1" "call_1760_L2").
  - exact two_calls_world_reachable.
  - vm_compute. reflexivity.
  - discriminate.
Defined.

(** ** The dedup set *)

Lemma make_call_keeps_called_leads (tw : twilio_result) (clock : nat)
    (now : string) (ld : lead) (w : world) :
  called_leads (make_call tw clock now ld w).1 = called_leads w ∧
  (make_call tw clock now ld w).2 = false.
Proof.
  unfold make_call. destruct tw as [| [|] call_sid]; try done;
    by rewrite mark_lead_as_called_missing.
Qed.

(** No request and no round of the monitoring thread writes to table
    [called_leads]. *)
Lemma step_keeps_called_leads (w w' : world) :
  step w w' -> called_leads w' = called_leads w.
Proof.
  intros Hstep. destruct Hstep.
  - unfold monitor. destruct (monitor_pick leads w); [| done].
    apply make_call_keeps_called_leads.
  - unfold handle_call. destruct (negb (truthy call_id)); [done |].
    rewrite store_ai_response_missing.
    destruct (generate_response _ _ _ _ _ _) as [ai answer]. simpl.
    by destruct (PyDict.mem call_id (call_history w)).
  - unfold handle_call_response. destruct (negb (truthy call_id)); [done |].
    rewrite store_ai_response_missing.
    by destruct (generate_response _ _ _ _ _ _) as [ai answer].
  - destruct (handle_call_status_cases now req w)
      as [[_ ->] | [_ [-> | (res & sid & ->)]]]; [done | |];
      simpl; apply update_keeps_called_leads.
Qed.

(** C4: the code at a lead whose call Twilio accepts.  The call is stored in
    the call history, [make_call] stops at [mark_lead_as_called], which
    [GHLIntegration] does not define, and answers [False]; table
    [called_leads] is as before, and the next round of the monitoring thread
    picks the same lead again. *)
Theorem C4_called_leads_never_written (leads : list lead) (ld : lead)
    (sid : string) (clock : nat) (now : string) (w : world) :
  monitor_pick leads w = Some ld ->
  let w' := monitor leads (TwTuple true (Some sid)) clock now w in
  let call_id := "call_" +:+ of_nat clock +:+ "_" +:+ default "unknown" (lead_key ld) in
  ci_status <$> history_entry w' call_id = Some "initiated" ∧
  called_leads w' = called_leads w ∧
  monitor_pick leads w' = Some ld.
Proof.
  intros Hpick w' call_id.
  assert (called_leads w' = called_leads w) as Hcalled.
  { unfold w', monitor. rewrite Hpick.
    apply make_call_keeps_called_leads. }
  split; [| split; [done |]].
  - unfold w', monitor. rewrite Hpick. unfold make_call.
    rewrite mark_lead_as_called_missing. simpl.
    unfold history_entry. simpl. rewrite get_set.
    rewrite bool_decide_eq_true_2 by done. simpl.
    by rewrite list_lookup_middle.
  - unfold monitor_pick in *. by rewrite Hcalled.
Qed.

Lemma C4_called_leads_never_written_witness :
  monitor_pick [john; mary] empty_world = Some john ∧
  ci_status <$> history_entry dialing_world "call_1700_L1" = Some "initiated" ∧
  called_leads dialing_world = [] ∧
  monitor_pick [john; mary] dialing_world = Some john.
Proof.
  split; [reflexivity |].
  exact (C4_called_leads_never_written [john; mary] john "CA1" 1700 "t0"
           empty_world eq_refl).
Defined.

(** ** The speech webhooks *)

(** C9 (as amended).  Neither speech handler ever answers with TwiML: a
    request without [call_id] is refused with status 400, and every other
    request ends, once the response is generated, at the lookup of
    [store_ai_response], which [AILogic] does not define, and is answered
    with status 500 and the text of the [AttributeError]. *)
Theorem C9_speech_handlers_never_answer_twiml (svc : generation)
    (now call_id lead_id speech : string) (w : world) :
  let answer :=
    if truthy call_id
    then JsonError 500 "'AILogic' object has no attribute 'store_ai_response'"
    else JsonError 400 "Call ID required" in
  (handle_call svc now call_id lead_id w).2 = answer ∧
  (handle_call_response svc now call_id speech w).2 = answer.
Proof.
  unfold handle_call, handle_call_response.
  rewrite store_ai_response_missing.
  destruct (truthy call_id); simpl; [| done].
  by do 2 destruct (generate_response _ _ _ _ _ _).
Qed.

(** C9, as stated, fails on a request that carries no [call_id]: the answer
    has status 400, and no attribute lookup takes place. *)
Lemma C9_missing_call_id_is_refused :
  (handle_call (fun _ _ => Some "Hello") "t0" "" "L1" empty_world).2
    = JsonError 400 "Call ID required" ∧
  (handle_call_response (fun _ _ => Some "Hello") "t0" "" "yes" empty_world).2
    = JsonError 400 "Call ID required".
Proof. split; vm_compute; reflexivity. Qed.

(** ** The wiring of [create_app] *)

Lemma get_absent (d : list (string * json)) (k : string) (dflt : json) :
  Config.item (JDict d) k = None -> Config.get (JDict d) k dflt = Some dflt.
Proof. simpl. unfold Config.lookup. by intros ->. Qed.

Lemma AILogic_init_without_section (s : json) (a : AILogic_attrs) :
  Config.item s "openai" = None -> AILogic_init s = Some a ->
  openai_api_key a = JNull.
Proof.
  intros Hno. destruct s as [| | | | | | d]; try done.
  unfold AILogic_init. rewrite (get_absent d "openai" _ Hno). simpl.
  destruct (Config.lookup "ai_settings" d) as [ai |]; simpl;
    [| by intros [= <-]].
  destruct ai; try done. simpl. by intros [= <-].
Qed.

Lemma GHLIntegration_init_without_section (s : json) (g : GHLIntegration) :
  Config.item s "ghl" = None -> GHLIntegration_init s = Some g ->
  api_key g = JNull ∧ location_id g = JNull.
Proof.
  intros Hno. destruct s as [| | | | | | d]; try done.
  unfold GHLIntegration_init. rewrite (get_absent d "ghl" _ Hno). simpl.
  by intros [= <-].
Qed.

Lemma TwilioIntegration_init_without_section (s : json) (t : TwilioIntegration) :
  Config.item s "twilio" = None -> TwilioIntegration_init s = Some t ->
  account_sid t = JNull ∧ auth_token t = JNull ∧ phone_number t = JNull ∧
  client t = false.
Proof.
  intros Hno. destruct s as [| | | | | | d]; try done.
  unfold TwilioIntegration_init. rewrite (get_absent d "twilio" _ Hno). simpl.
  by intros [= <-].
Qed.

Section Wiring.
(** The OpenAI client, as a function of the key the module [openai] holds
    when the request is made; the library raises when it holds none. *)
Variable openai_client : json -> generation.
Hypothesis keyless_client_raises : ∀ m msgs, openai_client JNull m msgs = None.

(** C8 (as amended).  Under the wiring of [create_app], for every accepted
    configuration of which no section repeats its own name inside itself,
    the three components see no credentials of the configuration: the three
    [is_configured] are false, no Twilio client exists, and [get_leads]
    returns the dummy leads.  [AILogic] never assigns [openai.api_key]: the
    module keeps whatever key it held before, which is the one the library
    took from the environment variable OPENAI_API_KEY, if any.  So
    [generate_response] answers as the client does with that earlier key: with
    the apology when the module held no key, and not with the apology when
    the environment provides the key and the service answers. *)
Theorem C8_components_see_no_credentials (config : json)
    (ai : AILogic_attrs) (ghl : GHLIntegration) (tw : TwilioIntegration) :
  Config._validate_required_keys config = true ->
  unnested config ->
  create_app config = Some (ai, ghl, tw) ->
  AILogic_is_configured ai = false ∧
  GHLIntegration_is_configured ghl = false ∧
  TwilioIntegration_is_configured tw = false ∧
  client tw = false ∧
  (∀ remote, get_leads ghl remote = get_dummy_leads ghl) ∧
  (∀ prev, openai_key_after prev ai = prev) ∧
  (∀ prev self now lead_info context call_id,
     generate_response self (openai_client (openai_key_after prev ai))
                       now lead_info context call_id
     = generate_response self (openai_client prev) now lead_info context call_id) ∧
  (∀ prev self now lead_info context call_id,
     prev = JNull ->
     generate_response self (openai_client (openai_key_after prev ai))
                       now lead_info context call_id = (self, apology)).
Proof.
  intros _ (Hai & Hghl & Htw). unfold create_app, nested in *.
  destruct (Config.item config "ai_settings") as [s1 |]; [| done]. simpl in *.
  destruct (AILogic_init s1) as [a |] eqn:Ha; [| done]. simpl.
  destruct (Config.item config "ghl") as [s2 |]; [| done]. simpl in *.
  destruct (GHLIntegration_init s2) as [g |] eqn:Hg; [| done]. simpl.
  destruct (Config.item config "twilio") as [s3 |]; [| done]. simpl in *.
  destruct (TwilioIntegration_init s3) as [t |] eqn:Ht; [| done]. simpl.
  intros [= <- <- <-].
  pose proof (AILogic_init_without_section s1 a Hai Ha) as Hkey.
  destruct (GHLIntegration_init_without_section s2 g Hghl Hg) as [Hk Hl].
  destruct (TwilioIntegration_init_without_section s3 t Htw Ht)
    as (Hsid & Htok & Hph & Hcl).
  assert (∀ prev, openai_key_after prev a = prev) as Hafter
    by (intros prev; unfold openai_key_after; by rewrite Hkey).
  split; [unfold AILogic_is_configured; by rewrite Hkey |].
  split; [unfold GHLIntegration_is_configured; by rewrite Hk |].
  split; [unfold TwilioIntegration_is_configured; by rewrite Hsid |].
  split; [done |].
  split; [intros remote; unfold get_leads; by rewrite Hk |].
  split; [exact Hafter |].
  split.
  - intros prev self now lead_info context call_id. by rewrite Hafter.
  - intros prev self now lead_info context call_id ->. rewrite Hafter.
    apply generate_response_failure, keyless_client_raises.
Qed.
End Wiring.

Lemma C8_components_see_no_credentials_witness :
  ∃ ai ghl tw,
    create_app env_config = Some (ai, ghl, tw) ∧
    AILogic_is_configured ai = false ∧
    GHLIntegration_is_configured ghl = false ∧
    TwilioIntegration_is_configured tw = false ∧
    openai_key_after (JStr "sk-key") ai = JStr "sk-key" ∧
    generate_response default_instance (sample_client (openai_key_after JNull ai))
                      "t0" john "" "call" = (default_instance, apology).
Proof.
  destruct (create_app env_config) as [[[ai ghl] tw] |] eqn:Happ;
    [| vm_compute in Happ; discriminate].
  exists ai, ghl, tw. split; [reflexivity |].
  assert (unnested env_config) as Hflat by (by repeat split).
  destruct (C8_components_see_no_credentials sample_client (fun _ _ => eq_refl)
              env_config ai ghl tw eq_refl Hflat Happ)
    as (H1 & H2 & H3 & _ & _ & H6 & _ & H8).
  split; [exact H1 |]. split; [exact H2 |]. split; [exact H3 |].
  split; [apply H6 |]. by apply H8.
Defined.

(** C8, as stated, fails in two ways.  On an accepted configuration whose
    section "ghl" holds a section "ghl", the lead gateway is configured, and
    [get_leads] goes to the GoHighLevel API instead of returning the dummy
    leads.  And on the configuration [load_config] builds from the
    environment, where the module [openai] holds the key of the variable
    OPENAI_API_KEY, [AILogic] is not configured and yet [generate_response]
    returns the text of the service, not the apology. *)
Lemma C8_credentials_are_seen :
  (Config._validate_required_keys nested_config = true ∧
   ∃ ai ghl tw,
     create_app nested_config = Some (ai, ghl, tw) ∧
     GHLIntegration_is_configured ghl = true ∧
     get_leads ghl (JList [JStr "a contact"]) = JList [JStr "a contact"] ∧
     get_dummy_leads ghl = JList []) ∧
  (Config._validate_required_keys env_config = true ∧
   unnested env_config ∧
   ∃ ai ghl tw,
     create_app env_config = Some (ai, ghl, tw) ∧
     AILogic_is_configured ai = false ∧
     let out :=
       generate_response default_instance
         (sample_client (openai_key_after (JStr "sk-key") ai))
         "t0" john "" "call" in
     out.2 = "Hello" ∧ out.2 ≠ apology ∧
     history_of out.1 "call" = [Turn "Maayaa" "Hello" "t0"]).
Proof.
  split.
  - split; [vm_compute; reflexivity |].
    destruct (create_app nested_config) as [[[ai ghl] tw] |] eqn:Happ;
      [| vm_compute in Happ; discriminate].
    exists ai, ghl, tw. split; [reflexivity |].
    vm_compute in Happ. injection Happ as <- <- <-.
    repeat split; vm_compute; reflexivity.
  - split; [vm_compute; reflexivity |]. split; [by repeat split |].
    destruct (create_app env_config) as [[[ai ghl] tw] |] eqn:Happ;
      [| vm_compute in Happ; discriminate].
    exists ai, ghl, tw. split; [reflexivity |].
    vm_compute in Happ. injection Happ as <- <- <-.
    split; [vm_compute; reflexivity |].
    split; [vm_compute; reflexivity |].
    split; [vm_compute; discriminate | vm_compute; reflexivity].
Qed.

(** * Further properties of the sources *)

(** ** The conversation memory *)

(** X1.  [store_user_response] appends one caller turn to the history of its
    call and to no other history; with an empty call id it stores nothing. *)
Theorem store_user_response_appends (self : AILogic) (now x text y : string) :
  history_of (store_user_response self now x text) y =
    if bool_decide (y = x) && truthy x
    then history_of self y ++ [Turn "Caller" text now]
    else history_of self y.
Proof.
  unfold store_user_response. destruct (truthy x).
  - rewrite history_of_append. case_bool_decide; [by subst | done].
  - by rewrite andb_false_r.
Qed.

(** X2.  When the generation succeeds, [generate_response] answers with the
    stripped text and appends it, as one turn of the agent, to the history of
    its call and to no other history; with an empty call id the answer is
    given and nothing is stored. *)
Theorem generate_response_success (self : AILogic) (svc : generation)
    (now : string) (lead_info : lead) (context x text y : string) :
  svc (model self) (generate_request self lead_info context x) = Some text ->
  let '(self', answer) := generate_response self svc now lead_info context x in
  answer = strip text ∧
  history_of self' y =
    if bool_decide (y = x) && truthy x
    then history_of self y ++ [Turn (agent_name self) (strip text) now]
    else history_of self y.
Proof.
  intros Hsvc. unfold generate_response. rewrite Hsvc.
  split; [done |]. destruct (truthy x).
  - rewrite history_of_append. case_bool_decide; [by subst | done].
  - by rewrite andb_false_r.
Qed.

Lemma generate_response_success_witness :
  let '(self', answer) :=
    generate_response default_instance (fun _ _ => Some "  Hello John.  ") "t0"
                      john "" "call" in
  answer = "Hello John." ∧
  history_of self' "call" = [Turn "Maayaa" "Hello John." "t0"].
Proof.
  exact (generate_response_success default_instance
           (fun _ _ => Some "  Hello John.  ") "t0" john "" "call"
           "  Hello John.  " "call" eq_refl).
Defined.

(** X3.  [clear_conversation] empties the history of its call and of no
    other call; a cleared call is classified neutral, with no turn. *)
Theorem clear_conversation_forgets (self : AILogic) (x y : string) :
  let self' := clear_conversation self x in
  history_of self' y = (if bool_decide (y = x) then [] else history_of self y) ∧
  outcome (analyze_conversation_outcome self' x) = "neutral" ∧
  conversation_length (analyze_conversation_outcome self' x) = 0 ∧
  extract_meeting_details self' x = None.
Proof.
  assert (∀ z, history_of (clear_conversation self x) z =
               if bool_decide (z = x) then [] else history_of self z) as Hclear.
  { intros z. unfold clear_conversation, history_of.
    destruct (conversation_memory self !! x) eqn:Hx; simpl.
    - case_bool_decide as Hz.
      + subst z. by rewrite lookup_delete_eq.
      + by rewrite lookup_delete_ne.
    - case_bool_decide as Hz; [subst z; by rewrite Hx | done]. }
  intros self'. split; [apply Hclear |].
  pose proof (Hclear x) as Hx. rewrite bool_decide_eq_true_2 in Hx by done.
  unfold analyze_conversation_outcome, extract_meeting_details.
  fold self'. unfold self'. by rewrite Hx.
Qed.

(** ** The request to the generation service *)

(** The message a stored turn is sent as. *)
Lemma _build_messages_shape (self : AILogic) (prompt context : string)
    (history : list turn) :
  _build_messages self prompt context history =
    ChatMessage "system" prompt ::
    map (fun msg =>
           ChatMessage (if bool_decide (speaker msg = agent_name self)
                        then "assistant" else "user") (content msg))
        (slice_from (- conversation_memory_turns self * 2) history)
    ++ (if truthy context then [ChatMessage "user" ("Context: " +:+ context)] else []).
Proof.
  unfold _build_messages. destruct (truthy context); simpl; [done |].
  by rewrite app_nil_r.
Qed.

(** X4.  After the system prompt, [_build_messages] sends the stored turns
    in order, a turn of the agent as "assistant" and any other as "user", and
    last the context when there is one.  With a memory of [n > 0] exchanges
    only the [2n] most recent turns are sent; with a memory of 0 the whole
    history is sent. *)
Theorem _build_messages_window (self : AILogic) (prompt context : string)
    (history : list turn) :
  let n := conversation_memory_turns self in
  let as_message := fun msg =>
    ChatMessage (if bool_decide (speaker msg = agent_name self)
                 then "assistant" else "user") (content msg) in
  let tail :=
    if truthy context then [ChatMessage "user" ("Context: " +:+ context)] else [] in
  ((0 < n)%Z ->
   _build_messages self prompt context history =
     ChatMessage "system" prompt ::
     map as_message (drop (length history - Z.to_nat (2 * n)) history) ++ tail) ∧
  (n = 0%Z ->
   _build_messages self prompt context history =
     ChatMessage "system" prompt :: map as_message history ++ tail).
Proof.
  intros n as_message tail. rewrite _build_messages_shape. fold n as_message tail.
  unfold slice_from. split.
  - intros Hn. rewrite (proj2 (Z.ltb_lt _ _)) by lia.
    by replace (Z.to_nat (Z.max 0 (Z.of_nat (length history) + - n * 2)))
      with (length history - Z.to_nat (2 * n)) by lia.
  - intros Hn. rewrite Hn. simpl. by rewrite drop_0.
Qed.

Lemma _build_messages_window_witness :
  _build_messages
    {| model := "gpt-4"; conversation_memory_turns := 1; agent_name := "Maayaa";
       company_name := "LoanCater"; contact_person := "Ryan";
       conversation_memory := ∅ |}
    "prompt" "" scenario_turns =
  [ ChatMessage "system" "prompt";
    ChatMessage "user" "tomorrow at 3 PM would work";
    ChatMessage "assistant" "I've scheduled your meeting ... for 3 p.m. tomorrow" ].
Proof.
  exact (proj1 (_build_messages_window
                  {| model := "gpt-4"; conversation_memory_turns := 1;
                     agent_name := "Maayaa"; company_name := "LoanCater";
                     contact_person := "Ryan"; conversation_memory := ∅ |}
                  "prompt" "" scenario_turns) eq_refl).
Defined.

(** ** More on the classifier *)

Lemma signal_app (keywords : list string) (who : string) (h more : list turn) :
  signal keywords who h -> signal keywords who (h ++ more).
Proof.
  intros (msg & keyword & Hin & Hrest). exists msg, keyword.
  split; [| done]. apply elem_of_app. by left.
Qed.

(** X5.  A positive answer stays: once some caller turn holds a positive
    phrase, whatever is said afterwards the outcome is positive or
    positive_meeting, never negative or neutral. *)
Theorem positive_response_is_kept (self self' : AILogic) (x : string)
    (more : list turn) :
  history_of self' x = history_of self x ++ more ->
  positive_response (analyze_conversation_outcome self x) = true ->
  positive_response (analyze_conversation_outcome self' x) = true ∧
  (outcome (analyze_conversation_outcome self' x) = "positive" ∨
   outcome (analyze_conversation_outcome self' x) = "positive_meeting").
Proof.
  intros Hmore Hpos.
  assert (positive_response (analyze_conversation_outcome self' x) = true) as Hpos'.
  { apply positive_response_spec. rewrite Hmore.
    by apply signal_app, positive_response_spec. }
  split; [done |]. rewrite (outcome_by_signals self' x), Hpos'.
  destruct (meeting_scheduled (analyze_conversation_outcome self' x));
    [right | left]; reflexivity.
Qed.

Lemma positive_response_is_kept_witness :
  outcome (analyze_conversation_outcome
             (store_user_response
                (store_user_response default_instance "t1" "call" "yes, sure")
                "t2" "call" "stop calling, not interested")
             "call") = "positive".
Proof.
  destruct (positive_response_is_kept
              (store_user_response default_instance "t1" "call" "yes, sure")
              (store_user_response
                 (store_user_response default_instance "t1" "call" "yes, sure")
                 "t2" "call" "stop calling, not interested")
              "call" [Turn "Caller" "stop calling, not interested" "t2"]
              eq_refl eq_refl) as [_ [H | H]].
  - exact H.
  - vm_compute in H. discriminate.
Defined.

(** X6.  Without a turn of the caller the outcome is neutral, whatever the
    agent said; so it is for a call id that has no history. *)
Theorem no_caller_turn_is_neutral (self : AILogic) (x : string) :
  (∀ msg, msg ∈ history_of self x -> speaker msg ≠ "Caller") ->
  let result := analyze_conversation_outcome self x in
  positive_response result = false ∧ negative_response result = false ∧
  outcome result = "neutral".
Proof.
  intros Hnone result.
  assert (∀ keywords, ¬ signal keywords "Caller" (history_of self x)) as Hsig.
  { intros keywords (msg & keyword & Hin & Hsp & _). by apply (Hnone msg). }
  assert (positive_response result = false) as Hpos.
  { destruct (positive_response result) eqn:H; [| done].
    apply positive_response_spec in H. by apply Hsig in H. }
  assert (negative_response result = false) as Hneg.
  { destruct (negative_response result) eqn:H; [| done].
    apply negative_response_spec in H. by apply Hsig in H. }
  repeat split; try done.
  unfold result. rewrite outcome_by_signals. fold result.
  by rewrite Hpos, Hneg.
Qed.

Lemma no_caller_turn_is_neutral_witness :
  outcome (analyze_conversation_outcome
             (with_memory default_instance
                (<["call" := [Turn "Maayaa" "Great, I will schedule a meeting" "t1"]]> ∅))
             "call") = "neutral".
Proof.
  refine (proj2 (proj2 (no_caller_turn_is_neutral
            (with_memory default_instance
               (<["call" := [Turn "Maayaa" "Great, I will schedule a meeting" "t1"]]> ∅))
            "call" _))).
  intros msg Hin. vm_compute in Hin.
  apply list_elem_of_singleton in Hin. by subst msg.
Defined.

(** ** The choice of the lead *)

Lemma filter_available_leads_elem (leads : list lead) (called : list string)
    (ld : lead) :
  ld ∈ filter_available_leads leads called
  ↔ ld ∈ leads ∧ ∀ i, lead_key ld = Some i -> i ∉ called.
Proof.
  unfold filter_available_leads.
  rewrite !list_elem_of_In, filter_In. apply and_iff_compat_l.
  destruct (lead_key ld) as [i |].
  - rewrite negb_true_iff, bool_decide_eq_false. split.
    + by intros H ? [= <-].
    + intros H. by apply H.
  - split; [by intros _ ? [=] | done].
Qed.

(** X7.  [filter_available_leads] keeps, in their order, exactly the leads
    whose id is not among the called ones; a lead without id is always kept;
    filtering twice changes nothing. *)
Theorem filter_available_leads_spec (leads : list lead) (called : list string) :
  (∀ ld, ld ∈ filter_available_leads leads called
         ↔ ld ∈ leads ∧ ∀ i, lead_key ld = Some i -> i ∉ called) ∧
  filter_available_leads leads called `sublist_of` leads ∧
  filter_available_leads (filter_available_leads leads called) called
    = filter_available_leads leads called.
Proof.
  split; [intros ld; apply filter_available_leads_elem |]. split.
  - unfold filter_available_leads. induction leads as [|ld leads IH]; simpl.
    + constructor.
    + destruct (match lead_key ld with Some _ => _ | None => _ end);
        by constructor.
  - unfold filter_available_leads. induction leads as [|ld leads IH]; simpl.
    + done.
    + destruct (match lead_key ld with Some _ => _ | None => _ end) eqn:Hld;
        simpl; [rewrite Hld; by f_equal | done].
Qed.

(** X8.  One round of [monitor] picks the first lead, in the order the lead
    gateway returned them, whose id is not in table [called_leads]; it never
    picks a lead whose id is in the table, and when every lead is in the table
    the round changes nothing. *)
Theorem monitor_picks_first_available (leads : list lead) (w : world) :
  (∀ pre ld post,
     leads = pre ++ ld :: post ->
     (∀ l, l ∈ pre -> ∃ i, lead_key l = Some i ∧ i ∈ called_leads w) ->
     (∀ i, lead_key ld = Some i -> i ∉ called_leads w) ->
     monitor_pick leads w = Some ld) ∧
  (∀ ld i, monitor_pick leads w = Some ld -> lead_key ld = Some i ->
           i ∉ called_leads w) ∧
  ((∀ l, l ∈ leads -> ∃ i, lead_key l = Some i ∧ i ∈ called_leads w) ->
   ∀ tw clock now, monitor leads tw clock now w = w).
Proof.
  assert (∀ l : list lead,
            (∀ x, x ∈ l -> ∃ i, lead_key x = Some i ∧ i ∈ called_leads w) ->
            filter_available_leads l (called_leads w) = []) as Hnone.
  { intros l Hl. unfold filter_available_leads.
    induction l as [|a l IH]; simpl; [done |].
    destruct (Hl a) as (i & -> & Hi); [by left |].
    rewrite (bool_decide_eq_true_2 _ Hi). simpl.
    apply IH. intros x Hx. apply Hl. by right. }
  split; [| split].
  - intros pre ld post -> Hpre Hld. unfold monitor_pick.
    assert (filter_available_leads (pre ++ ld :: post) (called_leads w) =
            ld :: filter_available_leads post (called_leads w)) as ->; [| done].
    unfold filter_available_leads at 1. rewrite List.filter_app.
    fold (filter_available_leads pre (called_leads w)).
    rewrite (Hnone pre Hpre). simpl.
    destruct (lead_key ld) as [i |]; [| done].
    by rewrite (bool_decide_eq_false_2 _ (Hld i eq_refl)).
  - intros ld i Hpick Hi. unfold monitor_pick in Hpick.
    assert (ld ∈ filter_available_leads leads (called_leads w)) as Hin.
    { destruct (filter_available_leads leads (called_leads w)); simplify_eq/=.
      by left. }
    apply filter_available_leads_elem in Hin as [_ Hin]. by apply Hin.
  - intros Hall tw clock now. unfold monitor, monitor_pick.
    by rewrite (Hnone leads Hall).
Qed.

Lemma monitor_picks_first_available_witness :
  monitor_pick [john; mary]
    {| ai_logic := default_instance; objects := []; call_history := [];
       active_calls := ∅; call_records := []; called_leads := ["L1"] |}
  = Some mary.
Proof.
  apply (proj1 (monitor_picks_first_available [john; mary] _) [john] mary []).
  - reflexivity.
  - intros l Hl. apply list_elem_of_singleton in Hl as ->.
    exists "L1". split; [reflexivity | by left].
  - intros i [= <-]. simpl. by intros ?%list_elem_of_singleton.
Defined.

(** ** Dialling *)

(** X9.  [make_call] never reports success: it answers [False] whatever
    Twilio returned; and when Twilio refuses the call, nothing at all is
    stored. *)
Theorem make_call_never_reports_success (tw : twilio_result) (clock : nat)
    (now : string) (ld : lead) (w : world) :
  (make_call tw clock now ld w).2 = false ∧
  (tw = TwFalse ∨ (∃ sid, tw = TwTuple false sid) ->
   (make_call tw clock now ld w).1 = w).
Proof.
  split; [apply make_call_keeps_called_leads |].
  by intros [-> | [sid ->]].
Qed.

Lemma make_call_never_reports_success_witness :
  make_call (TwilioIntegration_make_call
               {| tw_self_config := JDict []; twilio_config := JDict [];
                  account_sid := JNull; auth_token := JNull; phone_number := JNull;
                  webhook_base_url := JNull; client := false |} (Some "CA1"))
            1700 "t0" john empty_world = (empty_world, false).
Proof.
  destruct (make_call_never_reports_success TwFalse 1700 "t0" john empty_world)
    as [Hans Hsame].
  apply injective_projections; [apply Hsame; by left | exact Hans].
Defined.

(** The row [save_call_record] writes is the one found under its call id. *)
Lemma find_insert_same (row : call_record) (db : list call_record) :
  List.find (fun old => bool_decide (r_call_id old = r_call_id row))
            (insert_or_replace row db) = Some row.
Proof.
  unfold insert_or_replace. induction db as [|a db IH]; simpl.
  - by rewrite bool_decide_eq_true_2.
  - rewrite filter_cons. case_decide as Ha; [| exact IH].
    simpl. by rewrite (bool_decide_eq_false_2 _ Ha).
Qed.

(** X10.  When Twilio accepts the call, [make_call] stores one dict, with
    status "initiated", under the call id in the call history and in the
    active calls, and one row in the database, which [/call_records/<id>]
    then shows with the lead's name. *)
Theorem make_call_stores_session (sid : option string) (clock : nat)
    (now : string) (ld : lead) (w : world) :
  let id := call_id_of clock ld in
  let w' := (make_call (TwTuple true sid) clock now ld w).1 in
  let info := {| ci_call_id := id; ci_call_sid := sid; ci_lead_info := Some ld;
                 ci_lead_id := None; ci_start_time := now;
                 ci_status := "initiated" |} in
  history_entry w' id = Some info ∧
  active_entry w' id = Some info ∧
  get_call_record w' id =
    RecordFound id (lead_name_of ld) "initiated" ""
                (history_of (ai_logic w) id) "" 0 now.
Proof.
  intros id w' info. unfold w', make_call. fold (call_id_of clock ld). fold id.
  rewrite mark_lead_as_called_missing. cbn [fst]. fold info.
  split; [| split].
  - unfold history_entry. simpl. rewrite get_set.
    rewrite bool_decide_eq_true_2 by done. simpl.
    by rewrite list_lookup_middle.
  - unfold active_entry. simpl. rewrite lookup_insert_eq. simpl.
    by rewrite list_lookup_middle.
  - unfold get_call_record, db_record, save_call_record. simpl.
    match goal with
    | |- context [insert_or_replace ?row _] =>
        change id with (r_call_id row) at 1; rewrite (find_insert_same row)
    end.
    reflexivity.
Qed.

Lemma make_call_accepted (sid : option string) (clock : nat) (now : string)
    (ld : lead) (w : world) :
  let id := call_id_of clock ld in
  let info := {| ci_call_id := id; ci_call_sid := sid; ci_lead_info := Some ld;
                 ci_lead_id := None; ci_start_time := now;
                 ci_status := "initiated" |} in
  (make_call (TwTuple true sid) clock now ld w).1 =
    {| ai_logic := ai_logic w;
       objects := objects w ++ [info];
       call_history := PyDict.set id (length (objects w)) (call_history w);
       active_calls := <[id := length (objects w)]> (active_calls w);
       call_records :=
         save_call_record now id (Some info)
           {| res_status := "initiated"; res_call_sid := sid;
              res_conversation_data := ""; res_recording_url := "";
              res_duration := 0 |} (call_records w);
       called_leads := called_leads w |}.
Proof.
  intros id info. unfold make_call. by rewrite mark_lead_as_called_missing.
Qed.

Lemma set_length {V} (k : string) (v : V) (d : list (string * V)) :
  length (PyDict.set k v d) = if PyDict.mem k d then length d else S (length d).
Proof.
  unfold PyDict.mem. induction d as [|[k0 v0] d IH]; simpl; [done |].
  case_bool_decide; simpl; [done |]. rewrite IH.
  by destruct (PyDict.get k d).
Qed.

(** X11.  Call ids are not unique: a second accepted dial to the same lead
    within the same second gets the same call id, and its dict replaces the
    first one in the call history and in the active calls, which hold no more
    sessions than before. *)
Theorem same_second_dial_replaces_session (sid1 sid2 : option string)
    (clock : nat) (now1 now2 : string) (ld : lead) (w : world) :
  let id := call_id_of clock ld in
  let w1 := (make_call (TwTuple true sid1) clock now1 ld w).1 in
  let w2 := (make_call (TwTuple true sid2) clock now2 ld w1).1 in
  ci_call_sid <$> history_entry w1 id = Some sid1 ∧
  ci_call_sid <$> history_entry w2 id = Some sid2 ∧
  ci_start_time <$> history_entry w2 id = Some now2 ∧
  length (call_history w2) = length (call_history w1) ∧
  size (active_calls w2) = size (active_calls w1).
Proof.
  intros id w1 w2.
  assert (∀ sid now w0,
            history_entry (make_call (TwTuple true sid) clock now ld w0).1 id
            = Some {| ci_call_id := id; ci_call_sid := sid;
                      ci_lead_info := Some ld; ci_lead_id := None;
                      ci_start_time := now; ci_status := "initiated" |}) as Hentry.
  { intros sid now w0. rewrite make_call_accepted. unfold history_entry. simpl.
    fold id. rewrite get_set, bool_decide_eq_true_2 by done. simpl.
    by rewrite list_lookup_middle. }
  unfold w2. rewrite !Hentry. unfold w1. rewrite !Hentry. clear w2.
  do 3 (split; [done |]). fold w1. split.
  - rewrite (make_call_accepted sid2 clock now2 ld w1).
    cbn [call_history]. fold id. rewrite set_length.
    unfold PyDict.mem, w1. rewrite (make_call_accepted sid1).
    cbn [call_history]. fold id.
    by rewrite get_set, bool_decide_eq_true_2.
  - rewrite (make_call_accepted sid2 clock now2 ld w1).
    cbn [active_calls]. fold id. apply map_size_insert_Some.
    unfold w1. rewrite (make_call_accepted sid1). cbn [active_calls]. fold id.
    rewrite lookup_insert_eq. by eexists.
Qed.

Lemma primary_key_filter (P : call_record -> Prop) `{∀ x, Decision (P x)}
    (db : list call_record) :
  primary_key db -> primary_key (filter P db).
Proof.
  unfold primary_key. induction db as [|a db IH]; [done |].
  rewrite fmap_cons, NoDup_cons. intros [Ha Hdb].
  rewrite filter_cons. case_decide; [| by apply IH].
  rewrite fmap_cons, NoDup_cons. split; [| by apply IH].
  intros (row & Hkey & Hrow)%list_elem_of_fmap.
  apply list_elem_of_filter in Hrow as [_ Hrow].
  apply Ha, list_elem_of_fmap. by exists row.
Qed.

(** X12.  [save_call_record] is an insert-or-replace on the call id: after
    it, the row found under the call id is the one just written, the row found
    under any other call id is the one found before, and the table still has
    one row per call id. *)
Theorem save_call_record_upsert (now id : string) (info : option call_info)
    (res : call_result) (db : list call_record) (y : string) :
  let db' := save_call_record now id info res db in
  let find_in := fun k rows =>
    List.find (fun old => bool_decide (r_call_id old = k)) rows in
  (∃ row, find_in id db' = Some row ∧ r_call_id row = id ∧
          r_status row = res_status res ∧ r_call_sid row = res_call_sid res ∧
          r_recording_url row = res_recording_url res) ∧
  (y ≠ id -> find_in y db' = find_in y db) ∧
  (primary_key db -> primary_key db').
Proof.
  intros db' find_in. unfold db', find_in, save_call_record.
  set (row := {| r_call_id := id |}). split; [| split].
  - exists row. split; [| done]. exact (find_insert_same row db).
  - intros Hy. apply find_insert_or_replace. simpl. congruence.
  - intros Hpk. unfold insert_or_replace, primary_key.
    rewrite fmap_app. apply NoDup_app. split; [| split].
    + by apply primary_key_filter.
    + intros k (old & -> & Hold)%list_elem_of_fmap.
      apply list_elem_of_filter in Hold as [Hne _].
      intros Heq%list_elem_of_singleton. by apply Hne.
    + apply NoDup_singleton.
Qed.

Lemma save_call_record_upsert_witness :
  List.find (fun old => bool_decide (r_call_id old = "call_1760_L2"))
       (save_call_record "t5" "call_1700_L1" None
          {| res_status := "completed"; res_call_sid := Some "CA1";
             res_conversation_data := ""; res_recording_url := "RE1";
             res_duration := 0 |} (call_records two_calls_world))
  = db_record two_calls_world "call_1760_L2" ∧
  primary_key
    (save_call_record "t5" "call_1700_L1" None
       {| res_status := "completed"; res_call_sid := Some "CA1";
          res_conversation_data := ""; res_recording_url := "RE1";
          res_duration := 0 |} (call_records two_calls_world)).
Proof.
  destruct (save_call_record_upsert "t5" "call_1700_L1" None
              {| res_status := "completed"; res_call_sid := Some "CA1";
                 res_conversation_data := ""; res_recording_url := "RE1";
                 res_duration := 0 |} (call_records two_calls_world)
              "call_1760_L2") as (_ & Hother & Hpk).
  split; [apply Hother; discriminate |].
  apply Hpk. unfold primary_key. apply (bool_decide_unpack _). vm_compute. exact I.
Defined.

(** What each step does to table [call_records]. *)
Lemma step_call_records (w w' : world) (row : call_record) :
  step w w' -> row ∈ call_records w' ->
  row ∈ call_records w ∨ r_status row = "initiated".
Proof.
  intros Hstep Hrow. destruct Hstep.
  - unfold monitor in Hrow. destruct (monitor_pick leads w) as [ld |]; [| by left].
    destruct tw as [| [|] sid]; try by left.
    rewrite make_call_accepted in Hrow. simpl in Hrow.
    unfold save_call_record, insert_or_replace in Hrow.
    apply elem_of_app in Hrow as [Hold | Hnew].
    + left. by apply list_elem_of_filter in Hold as [_ Hold].
    + right. by apply list_elem_of_singleton in Hnew as ->.
  - left. revert Hrow. unfold handle_call.
    destruct (negb (truthy call_id)); [done |].
    rewrite store_ai_response_missing.
    destruct (generate_response _ _ _ _ _ _) as [ai answer]. simpl.
    by destruct (PyDict.mem call_id (call_history w)).
  - left. revert Hrow. unfold handle_call_response.
    destruct (negb (truthy call_id)); [done |].
    rewrite store_ai_response_missing.
    by destruct (generate_response _ _ _ _ _ _) as [ai answer].
  - left. revert Hrow. rewrite handle_call_status_eq. simpl.
    destruct (truthy _); [| done]. simpl. by rewrite update_keeps_records.
Qed.

(** X13.  The database never learns how a call went on: through any run of
    monitor rounds and webhook requests, a row of [call_records] is either a
    row that was there before the run or a row with status "initiated";
    [/call_status] changes the database not at all. *)
Theorem call_records_stay_initiated (w w' : world) :
  rtc step w w' ->
  (∀ row, row ∈ call_records w' ->
          row ∈ call_records w ∨ r_status row = "initiated") ∧
  (∀ now req, call_records (handle_call_status now req w).1 = call_records w).
Proof.
  intros Hrun. split.
  - induction Hrun as [w | w w1 w2 Hstep _ IH]; [by left |].
    intros row Hrow. destruct (IH row Hrow) as [Hold | Hinit]; [| by right].
    by apply (step_call_records w w1).
  - intros now req. rewrite handle_call_status_eq. simpl.
    destruct (truthy _); [| done]. simpl. by rewrite update_keeps_records.
Qed.

Lemma call_records_stay_initiated_witness :
  r_status <$> db_record completed_world "call_1700_L1" = Some "initiated" ∧
  ci_status <$> history_entry completed_world "call_1700_L1" = Some "completed".
Proof.
  assert (rtc step empty_world completed_world) as Hrun.
  { eapply rtc_l; [apply step_monitor |].
    eapply rtc_l; [apply step_handle_call_status | apply rtc_refl]. }
  destruct (call_records_stay_initiated empty_world completed_world Hrun)
    as [Hrows _].
  split; [| vm_compute; reflexivity].
  destruct (db_record completed_world "call_1700_L1") as [row |] eqn:Hrow;
    [| vm_compute in Hrow; discriminate].
  simpl. f_equal.
  destruct (Hrows row) as [Hold | Hinit]; [| by inversion Hold | exact Hinit].
  apply list_elem_of_In. unfold db_record in Hrow.
  by apply find_some in Hrow as [Hin _].
Defined.

(** ** The attribution of status events *)

Lemma find_absent {A} (f : A -> bool) (l : list A) :
  (∀ x, x ∈ l -> f x = false) -> List.find f l = None.
Proof.
  induction l as [|a l IH]; intros Hl; simpl; [done |].
  rewrite (Hl a) by by left. apply IH. intros x Hx. apply Hl. by right.
Qed.

Lemma find_first {A} (f : A -> bool) (pre post : list A) (a : A) :
  (∀ x, x ∈ pre -> f x = false) -> f a = true ->
  List.find f (pre ++ a :: post) = Some a.
Proof.
  intros Hpre Ha. induction pre as [|b pre IH]; simpl; [by rewrite Ha |].
  rewrite (Hpre b) by by left. apply IH. intros x Hx. apply Hpre. by right.
Qed.

(** X14.  A status event that names no call id in its URL and whose
    [CallSid] belongs to no session of the call history and to no row of the
    database is answered with status 400, and nothing is changed. *)
Theorem unknown_status_event_is_dropped (now : string) (req : status_request)
    (w : world) :
  arg_call_id req = "" ->
  (∀ cid r info, (cid, r) ∈ call_history w -> objects w !! r = Some info ->
                 ci_call_sid info ≠ Some (CallSid req)) ->
  (∀ row, row ∈ call_records w -> r_call_sid row ≠ Some (CallSid req)) ->
  handle_call_status now req w = (w, JsonError 400 "Call ID not found").
Proof.
  intros Hurl Hmem Hdb.
  assert (resolve_call_id w (arg_call_id req) (CallSid req) = "") as Hres.
  { unfold resolve_call_id. rewrite Hurl. simpl.
    rewrite (find_absent _ (call_history w)).
    - destruct (truthy (CallSid req)); simpl;
        rewrite (find_absent _ (call_records w)); try done;
        intros row Hrow; apply bool_decide_eq_false; by apply Hdb.
    - intros [cid r] Hin. apply bool_decide_eq_false.
      destruct (objects w !! r) as [info |] eqn:Hr; [| done].
      simpl. by apply (Hmem cid r info). }
  rewrite handle_call_status_eq. simpl. by rewrite Hres.
Qed.

Lemma unknown_status_event_is_dropped_witness :
  handle_call_status "t3"
    {| arg_call_id := ""; CallSid := "CA9"; CallStatus := "completed";
       RecordingUrl := ""; RecordingSid := "" |} two_calls_world
  = (two_calls_world, JsonError 400 "Call ID not found").
Proof.
  apply unknown_status_event_is_dropped; [reflexivity | |].
  - intros cid r info Hin Hr. vm_compute in Hin.
    apply elem_of_cons in Hin as [[= -> ->] | Hin];
      [| apply list_elem_of_singleton in Hin as [= -> ->]];
      vm_compute in Hr; injection Hr as <-; discriminate.
  - intros row Hrow. vm_compute in Hrow.
    apply elem_of_cons in Hrow as [-> | Hrow];
      [| apply list_elem_of_singleton in Hrow as ->]; discriminate.
Defined.

(** X15.  A status event is attributed, in this order: to the call id of its
    URL; else to the first session of the call history whose dict holds the
    event's [CallSid]; else to the first row of the database that holds it. *)
Theorem status_event_attribution (w : world) (sid : string) :
  (∀ url_id, truthy url_id = true -> resolve_call_id w url_id sid = url_id) ∧
  (∀ pre cid r post,
     truthy sid = true -> truthy cid = true ->
     call_history w = pre ++ (cid, r) :: post ->
     (objects w !! r) ≫= ci_call_sid = Some sid ->
     (∀ c r', (c, r') ∈ pre -> (objects w !! r') ≫= ci_call_sid ≠ Some sid) ->
     resolve_call_id w "" sid = cid) ∧
  (∀ pre row post,
     (∀ c r', (c, r') ∈ call_history w ->
              (objects w !! r') ≫= ci_call_sid ≠ Some sid) ->
     call_records w = pre ++ row :: post ->
     r_call_sid row = Some sid ->
     (∀ old, old ∈ pre -> r_call_sid old ≠ Some sid) ->
     resolve_call_id w "" sid = r_call_id row).
Proof.
  split; [| split].
  - intros url_id Hurl. unfold resolve_call_id. rewrite Hurl. simpl.
    by rewrite Hurl.
  - intros pre cid r post Hsid Hcid Hhist Hr Hpre.
    unfold resolve_call_id. rewrite Hsid, Hhist. simpl.
    rewrite (find_first _ pre post (cid, r)).
    + by rewrite Hcid.
    + intros [c r'] Hin. apply bool_decide_eq_false. by apply (Hpre c).
    + by apply bool_decide_eq_true.
  - intros pre row post Hmem Hdb Hrow Hpre.
    unfold resolve_call_id. simpl.
    rewrite (find_absent _ (call_history w)).
    + rewrite Hdb, (find_first _ pre post row).
      * by destruct (truthy sid).
      * intros old Hold. apply bool_decide_eq_false. by apply Hpre.
      * by apply bool_decide_eq_true.
    + intros [c r'] Hin. apply bool_decide_eq_false. by apply (Hmem c).
Qed.

Lemma status_event_attribution_witness :
  resolve_call_id two_calls_world "" "CA2" = "call_1760_L2".
Proof.
  apply (proj1 (proj2 (status_event_attribution two_calls_world "CA2"))
           [("call_1700_L1", 0)] "call_1760_L2" 1 []);
    try reflexivity.
  intros c r' Hin. apply list_elem_of_singleton in Hin as [= -> ->].
  vm_compute. discriminate.
Defined.

(** An equivalence between two closed decidable statements, by evaluation. *)
Ltac decide_closed_iff :=
  first
    [ split; intros _; apply (bool_decide_unpack _); vm_compute; exact I
    | let H := fresh in
      split; intros H; apply (bool_decide_pack _) in H; vm_compute in H;
      destruct H ].

(** X16.  The mapping of Twilio's statuses is idempotent, sends "answered"
    and "in-progress" to "active", lets every status it does not list through
    unchanged, and yields a terminal status exactly for the five terminal
    statuses of Twilio. *)
Theorem status_mapping_spec (s : string) :
  mapped_status_of (mapped_status_of s) = mapped_status_of s ∧
  (PyDict.get s status_mapping = None -> mapped_status_of s = s) ∧
  (mapped_status_of s = "active" ↔ s ∈ ["answered"; "in-progress"; "active"]) ∧
  (is_terminal (mapped_status_of s) = true ↔ s ∈ terminal_statuses).
Proof.
  assert (s ∈ ["initiated"; "ringing"; "answered"; "completed"; "busy"; "failed";
               "no-answer"; "canceled"; "in-progress"]
          ∨ PyDict.get s status_mapping = None) as [Hin | Hout].
  { unfold status_mapping. simpl.
    repeat (case_bool_decide;
            [subst s; left; apply (bool_decide_unpack _); vm_compute; exact I |]).
    by right. }
  - rewrite !elem_of_cons, elem_of_nil in Hin.
    repeat (destruct Hin as [-> | Hin];
            [split; [reflexivity |];
             split; [intros Hnone; vm_compute in Hnone; discriminate |];
             split; decide_closed_iff |]).
    destruct Hin.
  - assert (mapped_status_of s = s) as Hs
        by (unfold mapped_status_of; by rewrite Hout).
    rewrite !Hs. split; [done |]. split; [done |]. split.
    + rewrite !elem_of_cons, elem_of_nil. split; [by auto |].
      intros [-> | [-> | [-> | []]]]; try done;
        vm_compute in Hout; discriminate.
    + unfold is_terminal. apply bool_decide_eq_true.
Qed.

(** ** The active calls *)






(** X18.  The number of active calls [/health] reports goes down by one
    when a status event with a terminal status is attributed to an active
    call, and is unchanged by every other status event. *)
Theorem health_counts_open_calls (now now' : string) (req : status_request)
    (w : world) (ai : AILogic_attrs) (ghl : GHLIntegration) (tw : TwilioIntegration) :
  reachable w ->
  let x := resolve_call_id w (arg_call_id req) (CallSid req) in
  let w' := (handle_call_status now req w).1 in
  h_active_calls (health_check now' ai ghl tw w') =
    if truthy x && is_terminal (mapped_status_of (CallStatus req))
       && bool_decide (is_Some (active_calls w !! x))
    then pred (h_active_calls (health_check now' ai ghl tw w))
    else h_active_calls (health_check now' ai ghl tw w).
Proof.
  intros Hreach x w'. unfold health_check. simpl.
  pose proof (reachable_well_formed w Hreach) as Hwf.
  unfold w'. rewrite handle_call_status_eq. simpl. fold x.
  destruct (truthy x); [| done]. simpl.
  unfold update_call_history.
  destruct (active_calls w !! x) as [r |] eqn:Hr.
  - rewrite (wf_active w Hwf x r Hr).
    rewrite bool_decide_eq_true_2 by by eexists.
    destruct (is_terminal _); simpl; [| done].
    rewrite Hr. simpl. apply map_size_delete_Some. by eexists.
  - rewrite bool_decide_eq_false_2 by by intros [? ?].
    rewrite andb_false_r.
    destruct (PyDict.get x (call_history w)); [| done].
    destruct (is_terminal _); simpl; [| done]. by rewrite Hr.
Qed.

Lemma health_counts_open_calls_witness :
  size (active_calls two_calls_world) = 2 ∧
  size (active_calls
          (handle_call_status "t3" (status_event "call_1700_L1" "CA1" "no-answer")
                              two_calls_world).1) = 1.
Proof.
  split; [vm_compute; reflexivity |].
  pose proof (health_counts_open_calls "t3" "t4"
                (status_event "call_1700_L1" "CA1" "no-answer") two_calls_world
                {| ai_config := JDict []; openai_api_key := JNull;
                   cfg_model := JNull; cfg_max_tokens := JNull;
                   cfg_temperature := JNull;
                   cfg_conversation_memory_turns := JNull;
                   cfg_agent_name := JNull; cfg_company_name := JNull;
                   cfg_contact_person := JNull; cfg_contact_email := JNull |}
                {| ghl_self_config := JDict []; ghl_config := JDict [];
                   api_key := JNull; location_id := JNull;
                   check_interval := JNull; auto_call_enabled := JNull |}
                {| tw_self_config := JDict []; twilio_config := JDict [];
                   account_sid := JNull; auth_token := JNull;
                   phone_number := JNull; webhook_base_url := JNull;
                   client := false |}
                two_calls_world_reachable) as H.
  simpl in H. vm_compute in H. vm_compute. exact H.
Defined.

(** ** The calling endpoints *)

Lemma make_call_unbound :
  load_name routes_scope "make_call" = Raise (NameError "make_call").
Proof. vm_compute. reflexivity. Qed.

Lemma call_and_answer_unbound (callee : json -> world -> world * bool)
    (ld : json) (started failed : string) (w : world) :
  call_and_answer callee ld started failed w
  = (w, Refused 500 "name 'make_call' is not defined").
Proof. unfold call_and_answer. by rewrite make_call_unbound. Qed.

(** X19.  [/make_call] and [/test_call] never start a call: whatever the
    request, and whatever function a name [make_call] would stand for, the
    answer is an error with status 400, 404 or 500 and the state is
    unchanged, because routes.py binds no name [make_call]. *)
Theorem calling_endpoints_never_call (ghl : GHLIntegration)
    (callee : json -> world -> world * bool) (body : json_body)
    (remote : option json) (w : world) :
  let refused := fun (out : world * endpoint_response) =>
    out.1 = w ∧ ∃ status error, out.2 = Refused status error ∧
                                status ∈ [400; 404; 500] in
  refused (make_call_endpoint ghl callee body remote w) ∧
  refused (test_call callee body w).
Proof.
  intros refused. unfold refused, make_call_endpoint, test_call. split.
  - destruct body as [text | data]; cbn -[call_and_answer]; rewrite ?call_and_answer_unbound.
    { split; [done |]. exists 500, text. split; [done | set_solver]. }
    destruct (Config.get data "lead_id" JNull) as [lead_id |]; cbn -[call_and_answer]; rewrite ?call_and_answer_unbound.
    2: { split; [done |]. eexists 500, _. split; [done | set_solver]. }
    destruct (Config.truthy lead_id); cbn -[call_and_answer]; rewrite ?call_and_answer_unbound.
    2: { split; [done |]. eexists 400, _. split; [done | set_solver]. }
    destruct (Config.truthy (default JNull (get_lead_by_id ghl remote))); cbn -[call_and_answer]; rewrite ?call_and_answer_unbound.
    2: { split; [done |]. eexists 404, _. split; [done | set_solver]. }
    split; [done |]. eexists 500, _. split; [done | set_solver].
  - destruct body as [text | data]; cbn -[call_and_answer]; rewrite ?call_and_answer_unbound.
    { split; [done |]. exists 500, text. split; [done | set_solver]. }
    destruct (Config.get data "phone_number" JNull) as [phone_number |]; cbn -[call_and_answer]; rewrite ?call_and_answer_unbound.
    2: { split; [done |]. eexists 500, _. split; [done | set_solver]. }
    destruct (Config.truthy phone_number); cbn -[call_and_answer]; rewrite ?call_and_answer_unbound.
    2: { split; [done |]. eexists 400, _. split; [done | set_solver]. }
    split; [done |]. eexists 500, _. split; [done | set_solver].
Qed.

(** ** The speech webhooks, once more *)

(** X20.  [/handle_response] fails after its work is done: though the
    answer is the error of status 500, the caller's words (a fixed placeholder
    when nothing was transcribed) have been appended to the history of the
    call, followed by the agent's reply when the generation succeeded. *)
Theorem handle_call_response_keeps_turns (svc : generation)
    (now call_id speech : string) (w : world) :
  truthy call_id = true ->
  let user_response :=
    if truthy speech then speech else "User spoke but no text was captured" in
  let stored := store_user_response (ai_logic w) now call_id user_response in
  let lead_info := default no_lead (history_entry w call_id ≫= ci_lead_info) in
  let reply :=
    svc (model stored) (generate_request stored lead_info user_response call_id) in
  let out := handle_call_response svc now call_id speech w in
  out.2 = JsonError 500 "'AILogic' object has no attribute 'store_ai_response'" ∧
  history_of (ai_logic out.1) call_id =
    history_of (ai_logic w) call_id
    ++ Turn "Caller" user_response now
       :: match reply with
          | Some text => [Turn (agent_name (ai_logic w)) (strip text) now]
          | None => []
          end.
Proof.
  intros Hid user_response stored lead_info reply out.
  assert (history_of stored call_id =
          history_of (ai_logic w) call_id ++ [Turn "Caller" user_response now])
    as Hstored.
  { unfold stored, store_user_response. rewrite Hid, history_of_append.
    by rewrite bool_decide_eq_true_2. }
  unfold out, handle_call_response.
  rewrite store_ai_response_missing, Hid. cbn [negb].
  replace (if negb (truthy speech) then "User spoke but no text was captured"
           else speech) with user_response
    by (unfold user_response; by destruct (truthy speech)).
  fold stored.
  change (history_entry (with_ai w stored) call_id)
    with (history_entry w call_id). fold lead_info.
  change (ai_logic (with_ai w stored)) with stored.
  assert (agent_name stored = agent_name (ai_logic w)) as Hagent
      by (unfold stored, store_user_response; by rewrite Hid).
  unfold generate_response. fold reply. destruct reply as [text |]; simpl.
  - split; [done |]. rewrite Hid, history_of_append.
    rewrite bool_decide_eq_true_2 by done. rewrite Hstored, Hagent.
    by rewrite <- app_assoc.
  - split; [done |]. by rewrite Hstored.
Qed.

Lemma handle_call_response_keeps_turns_witness :
  history_of
    (ai_logic (handle_call_response (fun _ _ => Some "What amount?") "t1"
                                    "call_1700_L1" "" dialing_world).1)
    "call_1700_L1"
  = [ Turn "Caller" "User spoke but no text was captured" "t1";
      Turn "Maayaa" "What amount?" "t1" ].
Proof.
  exact (proj2 (handle_call_response_keeps_turns (fun _ _ => Some "What amount?")
                  "t1" "call_1700_L1" "" dialing_world eq_refl)).
Defined.

(** X21.  Once a turn is stored for a call, the opening prompt is never
    used again for it: after [store_user_response], as [/handle_response]
    calls it before generating, the system prompt of the request is the
    qualification template when the call had at most one turn and the
    scheduling template otherwise. *)
Theorem stage_after_caller_turn (self : AILogic) (now call_id text : string)
    (lead_info : lead) (context : string) :
  truthy call_id = true ->
  let stored := store_user_response self now call_id text in
  head (generate_request stored lead_info context call_id) =
    Some (ChatMessage "system"
            match length (history_of self call_id) with
            | 0 | 1 => qualification_prompt self
            | S (S _) => scheduling_prompt self (lead_name_of lead_info)
            end).
Proof.
  intros Hid stored.
  assert (length (history_of stored call_id) = S (length (history_of self call_id)))
    as Hlen.
  { unfold stored, store_user_response. rewrite Hid, history_of_append.
    rewrite bool_decide_eq_true_2 by done. rewrite length_app. simpl. lia. }
  unfold generate_request. rewrite _build_messages_shape. simpl.
  rewrite Hlen. unfold _build_system_prompt. simpl.
  assert (qualification_prompt stored = qualification_prompt self) as ->
      by (unfold stored, store_user_response; by rewrite Hid).
  assert (scheduling_prompt stored (lead_name_of lead_info)
          = scheduling_prompt self (lead_name_of lead_info)) as ->
      by (unfold stored, store_user_response; by rewrite Hid).
  by destruct (length (history_of self call_id)) as [|[|n]].
Qed.

Lemma stage_after_caller_turn_witness :
  head (generate_request
          (store_user_response default_instance "t1" "call" "Hello?")
          john "Hello?" "call")
  = Some (ChatMessage "system" (qualification_prompt default_instance)).
Proof.
  exact (stage_after_caller_turn default_instance "t1" "call" "Hello?" john
           "Hello?" eq_refl).
Defined.

(** X22.  [/handle_call] creates the session of its call only when the call
    history has none: an existing session is left as it is, a new one starts
    with status "initiated" and the lead id of the URL; no other session, no
    active call and no row of the database is touched, and a request without
    call id changes nothing. *)
Theorem handle_call_creates_session_once (svc : generation)
    (now call_id lead_id : string) (w : world) (y : string) :
  well_formed w ->
  let w' := (handle_call svc now call_id lead_id w).1 in
  (truthy call_id = false -> w' = w) ∧
  (truthy call_id = true ->
   history_entry w' call_id =
     match history_entry w call_id with
     | Some info => Some info
     | None =>
         Some {| ci_call_id := call_id; ci_call_sid := None;
                 ci_lead_info := None; ci_lead_id := Some lead_id;
                 ci_start_time := now; ci_status := "initiated" |}
     end) ∧
  (y ≠ call_id -> history_entry w' y = history_entry w y) ∧
  active_calls w' = active_calls w ∧
  call_records w' = call_records w.
Proof.
  intros Hwf w'. unfold w', handle_call.
  rewrite store_ai_response_missing.
  destruct (truthy call_id) eqn:Hid; cbn [negb]; [| done].
  destruct (generate_response _ _ _ _ _ _) as [ai answer]. cbn [fst].
  unfold PyDict.mem.
  destruct (PyDict.get call_id (call_history w)) as [r |] eqn:Hget.
  - split; [done |]. split; [| done]. intros _.
    unfold history_entry. simpl. rewrite Hget. simpl.
    destruct (objects w !! r) eqn:Hr; [done |].
    apply lookup_ge_None in Hr.
    pose proof (wf_allocated w Hwf call_id r Hget). lia.
  - split; [done |]. split; [| split; [| done]].
    + intros _. unfold history_entry. simpl. rewrite Hget, get_set.
      rewrite bool_decide_eq_true_2 by done. simpl.
      by rewrite list_lookup_middle.
    + intros Hy. unfold history_entry. simpl. rewrite get_set.
      rewrite bool_decide_eq_false_2 by done.
      destruct (PyDict.get y (call_history w)) as [ry |] eqn:Hry; [| done].
      simpl. apply lookup_app_l. by apply (wf_allocated w Hwf y).
Qed.

Lemma handle_call_creates_session_once_witness :
  history_entry (handle_call (fun _ _ => None) "t5" "call_1700_L1" "L9"
                             dialing_world).1 "call_1700_L1"
  = history_entry dialing_world "call_1700_L1" ∧
  ci_lead_id <$>
    history_entry (handle_call (fun _ _ => None) "t5" "call_7" "L9"
                               dialing_world).1 "call_7"
  = Some (Some "L9").
Proof.
  assert (well_formed dialing_world) as Hwf.
  { apply reachable_well_formed.
    eapply reachable_step; [| apply step_monitor].
    apply reachable_initial. by repeat split. }
  split.
  - destruct (handle_call_creates_session_once (fun _ _ => None) "t5"
                "call_1700_L1" "L9" dialing_world "call_1700_L1" Hwf)
      as (_ & Hsame & _).
    rewrite (Hsame eq_refl). vm_compute. reflexivity.
  - destruct (handle_call_creates_session_once (fun _ _ => None) "t5"
                "call_7" "L9" dialing_world "call_7" Hwf)
      as (_ & Hnew & _).
    rewrite (Hnew eq_refl). vm_compute. reflexivity.
Defined.

(** ** The constructors on the whole configuration *)

Lemma walk_two (config : json) (a b : string) :
  Config.truthy (Config.walk [a; b] config) = true ->
  ∃ d sd v, config = JDict d ∧ Config.lookup a d = Some (JDict sd) ∧
            Config.lookup b sd = Some v ∧ Config.truthy v = true.
Proof.
  simpl. destruct config as [| | | | | | d]; try done.
  destruct (Config.lookup a d) as [[| | | | | | sd] |] eqn:Ha; try done.
  destruct (Config.lookup b sd) as [v |] eqn:Hb; try done.
  intros Hv. by exists d, sd, v.
Qed.

Lemma validated_keys (config : json) :
  Config._validate_required_keys config = true ->
  Forall (fun p => Config.truthy (Config.walk p.1 config) = true)
         Config.required_keys.
Proof.
  unfold Config._validate_required_keys, Config.missing_keys.
  generalize Config.required_keys. intros l.
  induction l as [|p l IH]; [by constructor |].
  rewrite filter_cons. case_decide as Hp; [done |].
  intros Hl. constructor; [| by apply IH].
  by destruct (Config.truthy (Config.walk p.1 config)).
Qed.

(** X23.  The constructors are written for the whole configuration: on a
    configuration that [_validate_required_keys] accepts, [GHLIntegration]
    finds its credentials, is configured and lets [get_leads] query the API,
    [TwilioIntegration] creates its client, and [AILogic], when its settings
    are readable, finds the OpenAI key and installs it in the OpenAI module. *)
Theorem validated_config_configures (config : json) :
  Config._validate_required_keys config = true ->
  ∃ ghl tw,
    GHLIntegration_init config = Some ghl ∧
    GHLIntegration_is_configured ghl = true ∧
    (∀ remote, get_leads ghl remote = remote) ∧
    TwilioIntegration_init config = Some tw ∧
    client tw = true ∧
    (∀ ai, AILogic_init config = Some ai ->
           AILogic_is_configured ai = true ∧
           ∀ prev, openai_key_after prev ai = openai_api_key ai).
Proof.
  intros Hvalid. apply validated_keys in Hvalid.
  unfold Config.required_keys in Hvalid.
  apply Forall_cons in Hvalid as [Hk Hvalid].
  apply Forall_cons in Hvalid as [Hl Hvalid].
  apply Forall_cons in Hvalid as [Ho Hvalid].
  apply Forall_cons in Hvalid as [Hs Hvalid].
  apply Forall_cons in Hvalid as [Ht _].
  apply walk_two in Hk as (d & gd & k & -> & Hghl & Hk & Hkt).
  apply walk_two in Hl as (d' & gd' & l & [= <-] & Hghl' & Hl & Hlt).
  rewrite Hghl in Hghl'. injection Hghl' as <-.
  apply walk_two in Ho as (d' & od & o & [= <-] & Hopenai & Ho & Hot).
  apply walk_two in Hs as (d' & td & sid & [= <-] & Htw & Hs & Hst).
  apply walk_two in Ht as (d' & td' & tok & [= <-] & Htw' & Ht & Htt).
  rewrite Htw in Htw'. injection Htw' as <-.
  eexists _, _. split; [| split; [| split; [| split; [| split]]]].
  - unfold GHLIntegration_init. simpl. rewrite Hghl. simpl.
    rewrite Hk, Hl. simpl. reflexivity.
  - unfold GHLIntegration_is_configured, Config.py_and. simpl.
    by rewrite Hkt.
  - intros remote. unfold get_leads. simpl. by rewrite Hkt, Hlt.
  - unfold TwilioIntegration_init. simpl. rewrite Htw. simpl.
    rewrite Hs, Ht. simpl. reflexivity.
  - simpl. unfold Config.py_and. by rewrite Hst.
  - intros ai. unfold AILogic_init. simpl. rewrite Hopenai. simpl.
    rewrite Ho. simpl.
    destruct (Config.get _ "model" _); [| done]. simpl.
    destruct (Config.get _ "max_tokens" _); [| done]. simpl.
    destruct (Config.get _ "temperature" _); [| done]. simpl.
    destruct (Config.get _ "conversation_memory_turns" _); [| done]. simpl.
    destruct (Config.get _ "agent_name" _); [| done]. simpl.
    destruct (Config.get _ "company_name" _); [| done]. simpl.
    destruct (Config.get _ "contact_person" _); [| done]. simpl.
    destruct (Config.get _ "contact_email" _); [| done]. simpl.
    intros [= <-]. unfold AILogic_is_configured, openai_key_after. simpl.
    by rewrite Hot.
Qed.

Lemma validated_config_configures_witness :
  ∃ ghl tw,
    GHLIntegration_init env_config = Some ghl ∧
    GHLIntegration_is_configured ghl = true ∧
    TwilioIntegration_init env_config = Some tw ∧ client tw = true.
Proof.
  destruct (validated_config_configures env_config eq_refl)
    as (ghl & tw & H1 & H2 & _ & H4 & H5 & _).
  by exists ghl, tw.
Defined.

(** ** The number dialled *)

(** X24.  The number dialled always starts with "+1": a number that has the
    prefix is dialled as it is, any other gets the prefix put before it, and
    a lead without phone is dialled as "+1"; preparing a prepared number
    changes nothing. *)
Theorem dialled_number_prefix (ld : lead) :
  startswith (dialled_number ld) "+1" = true ∧
  (startswith (default "" (phone ld)) "+1" = true ->
   dialled_number ld = default "" (phone ld)) ∧
  (startswith (default "" (phone ld)) "+1" = false ->
   dialled_number ld = "+1" +:+ default "" (phone ld)) ∧
  dialled_number (Lead (lead_key ld) (firstName ld) (lastName ld)
                       (Some (dialled_number ld))) = dialled_number ld.
Proof.
  assert (startswith (dialled_number ld) "+1" = true) as Hpre.
  { unfold dialled_number.
    by destruct (startswith (default "" (phone ld)) "+1") eqn:Hp. }
  split; [done |].
  split; [unfold dialled_number; by intros -> |].
  split; [unfold dialled_number; by intros -> |].
  set (n := dialled_number ld) in *.
  change (dialled_number (Lead (lead_key ld) (firstName ld) (lastName ld) (Some n)))
    with (if negb (startswith n "+1") then "+1" +:+ n else n).
  by rewrite Hpre.
Qed.

Lemma dialled_number_prefix_witness :
  dialled_number john = "+15551234" ∧
  dialled_number (Lead None None None (Some "+442071234567")) = "+1+442071234567".
Proof.
  split.
  - exact (proj1 (proj2 (proj2 (dialled_number_prefix john))) eq_refl).
  - exact (proj1 (proj2 (proj2 (dialled_number_prefix
             (Lead None None None (Some "+442071234567"))))) eq_refl).
Defined.

(** ** The recording sid of a recording URL *)

Lemma append_nil_r (s : string) : s +:+ EmptyString = s.
Proof. induction s as [|c s IH]; [done |]. by rewrite append_cons, IH. Qed.

Lemma length_append (s t : string) :
  String.length (s +:+ t) = String.length s + String.length t.
Proof.
  induction s as [|c s IH]; [done |]. rewrite append_cons. simpl. by rewrite IH.
Qed.

Lemma startswith_app_long (s t p : string) :
  String.length p ≤ String.length s ->
  startswith (s +:+ t) p = startswith s p.
Proof.
  revert s. induction p as [|a p IH]; intros s Hlen; [done |].
  destruct s as [|b s]; simpl in Hlen; [lia |].
  rewrite append_cons. simpl. rewrite IH by lia. done.
Qed.

Lemma py_in_false_cons (k : string) (c : ascii) (s : string) :
  py_in k (String c s) = false ->
  startswith (String c s) k = false ∧ py_in k s = false.
Proof. simpl. by intros ?%orb_false_iff. Qed.

Lemma py_in_false_suffix (k p s : string) :
  py_in k (p +:+ s) = false -> py_in k s = false.
Proof.
  induction p as [|c p IH]; [done |]. rewrite append_cons.
  intros [_ H]%py_in_false_cons. by apply IH.
Qed.

Lemma py_in_false_startswith (k s : string) :
  py_in k s = false -> startswith s k = false.
Proof.
  destruct s as [|c s]; simpl; by intros [? ?]%orb_false_iff.
Qed.

Lemma last_piece_skip (sep u rest piece : string) :
  last_piece sep (u +:+ rest) (String.length u) piece = last_piece sep rest 0 piece.
Proof.
  induction u as [|c u IH]; [done |]. rewrite append_cons. simpl. exact IH.
Qed.

Lemma last_piece_cons (sep : string) (c : ascii) (s piece : string) :
  last_piece sep (String c s) 0 piece
  = if startswith (String c s) sep
    then last_piece sep s (String.length sep - 1) EmptyString
    else last_piece sep s 0 (piece +:+ String c EmptyString).
Proof. done. Qed.

Lemma last_piece_no_sep (sep s piece : string) :
  py_in sep s = false -> last_piece sep s 0 piece = piece +:+ s.
Proof.
  revert piece. induction s as [|c s IH]; intros piece Hno.
  - by rewrite append_nil_r.
  - apply py_in_false_cons in Hno as [Hstart Hno].
    rewrite last_piece_cons, Hstart, IH by done.
    rewrite append_assoc. by rewrite append_cons, append_nil.
Qed.

Lemma last_piece_at_sep (a : ascii) (sep' rest piece : string) :
  last_piece (String a sep') (String a sep' +:+ rest) 0 piece
  = last_piece (String a sep') rest 0 EmptyString.
Proof.
  assert (startswith (String a sep' +:+ rest) (String a sep') = true) as Hstart
    by (apply startswith_spec; by exists rest).
  rewrite append_cons in *. rewrite last_piece_cons, Hstart.
  cbn [String.length]. rewrite Nat.sub_succ, Nat.sub_0_r. apply last_piece_skip.
Qed.

Lemma last_piece_prefix (a : ascii) (sep' pre rest piece : string) :
  (∀ p1 c p2, pre = p1 +:+ String c p2 ->
              startswith (String c p2 +:+ String a sep' +:+ rest) (String a sep')
              = false) ->
  last_piece (String a sep') (pre +:+ String a sep' +:+ rest) 0 piece
  = last_piece (String a sep') rest 0 EmptyString.
Proof.
  revert piece. induction pre as [|c pre IH]; intros piece Hpre.
  - apply last_piece_at_sep.
  - pose proof (Hpre EmptyString c pre eq_refl) as Hstart.
    rewrite append_cons in *. rewrite last_piece_cons, Hstart.
    apply IH. intros p1 c' p2 ->. by apply (Hpre (String c p1) c' p2).
Qed.

Lemma first_piece_cons (sep : string) (c : ascii) (s : string) :
  first_piece sep (String c s)
  = if startswith (String c s) sep then EmptyString
    else String c (first_piece sep s).
Proof. done. Qed.

Lemma first_piece_stop (sid tail : string) :
  py_in "/" sid = false ->
  tail = EmptyString ∨ startswith tail "/" = true ->
  first_piece "/" (sid +:+ tail) = sid.
Proof.
  intros Hsid Htail. induction sid as [|c sid IH].
  - rewrite append_nil. destruct Htail as [-> | Htail]; [done |].
    destruct tail as [|t tail]; [done |]. by rewrite first_piece_cons, Htail.
  - apply py_in_false_cons in Hsid as [Hstart Hsid].
    rewrite append_cons, first_piece_cons, <- append_cons.
    rewrite startswith_app_long, Hstart by (simpl; lia). by rewrite IH.
Qed.

(** X25.  The recording sid is recovered from a recording URL: for a URL
    [pre/Recordings/sid] or [pre/Recordings/sid/...], where "/Recordings/"
    occurs neither earlier nor later and [sid] has no slash, and when the
    event carries no [RecordingSid] of its own, the value stored is [sid].  An
    explicit [RecordingSid] is always taken as it is, and a URL without
    "/Recordings/" yields the empty sid. *)
Theorem recording_sid_of_url (pre sid tail : string) :
  py_in "/Recordings/" (pre +:+ "/Recordings") = false ->
  py_in "/" sid = false ->
  tail = EmptyString ∨ startswith tail "/" = true ->
  py_in "/Recordings/" (sid +:+ tail) = false ->
  recording_sid_of (pre +:+ "/Recordings/" +:+ sid +:+ tail) EmptyString = sid ∧
  (∀ url given, truthy given = true -> recording_sid_of url given = given) ∧
  (∀ url, py_in "/Recordings/" url = false ->
          recording_sid_of url EmptyString = EmptyString).
Proof.
  intros Hpre Hsid Htail Hlater. split; [| split].
  - set (url := pre +:+ "/Recordings/" +:+ sid +:+ tail).
    assert (truthy url = true) as Hurl by (unfold url; by destruct pre).
    assert (py_in "/Recordings/" url = true) as Hin
      by (apply py_in_spec; by exists pre, (sid +:+ tail)).
    unfold recording_sid_of. rewrite Hurl, Hin. simpl negb. cbn [andb].
    unfold url. rewrite last_piece_prefix.
    + rewrite last_piece_no_sep by done. rewrite append_nil.
      by apply first_piece_stop.
    + intros p1 c p2 ->.
      rewrite append_assoc in Hpre. apply py_in_false_suffix in Hpre.
      apply py_in_false_startswith in Hpre.
      change ("/Recordings/" +:+ sid +:+ tail)
        with ("/Recordings" +:+ "/" +:+ sid +:+ tail).
      rewrite <- append_assoc.
      rewrite startswith_app_long; [exact Hpre |].
      rewrite append_cons. cbn [String.length]. rewrite length_append.
      simpl. lia.
  - intros url given Hgiven. unfold recording_sid_of. rewrite Hgiven.
    by rewrite andb_false_r.
  - intros url Hno. unfold recording_sid_of. rewrite Hno.
    by destruct (truthy url).
Qed.

Lemma recording_sid_of_url_witness :
  recording_sid_of
    "https://api.twilio.com/2010-04-01/Accounts/AC1/Recordings/RE1/Media" ""
  = "RE1" ∧
  recording_sid_of
    "https://api.twilio.com/2010-04-01/Accounts/AC1/Recordings/RE1" ""
  = "RE1".
Proof.
  split.
  - exact (proj1 (recording_sid_of_url
                    "https://api.twilio.com/2010-04-01/Accounts/AC1" "RE1" "/Media"
                    eq_refl eq_refl (or_intror eq_refl) eq_refl)).
  - exact (proj1 (recording_sid_of_url
                    "https://api.twilio.com/2010-04-01/Accounts/AC1" "RE1" ""
                    eq_refl eq_refl (or_introl eq_refl) eq_refl)).
Defined.
